(* ===== verification/_CoqProject ===== *)
-Q . S2P
Prelude.v
Paths.v
Iter.v
Json.v
JsoncParser.v
Crate.v
ConfigV1.v
Config.v
Loader.v
Tests.v
