(* ===== verification/Prelude.v ===== *)
(** * turborepo-microfrontends: a verification development

    The crate ([src/crates/turborepo-microfrontends/src/lib.rs]) finds
    the microfrontends configuration of a monorepo package, sniffs its
    schema version, parses it with the parser of that version, rejects
    "reference" files that only point at the owning application, and
    answers two queries for the local development proxy: which
    applications to start with which task ([development_tasks]) and
    which port each binds ([port]).

    ** How the parts interact
    [Config::load_from_dir] resolves the package directory, asks
    [load_v1_dir] for the first existing candidate file, and hands its
    text to [Config::from_str].  [from_str] runs two passes over the
    text through the biome JSON deserializer: a cheap one that only
    reads [version] (struct [VersionOnly]), and, for version "1", the
    full parse of [configv1::ConfigV1::from_str], whose [Reference]
    outcome becomes the error [ChildConfig].  The resulting [Config]
    dispatches [development_tasks] and [port] to its version's model.

    ** Files (in dependency order)
    - [Prelude]: this header; Rust's [Result] as [result] with the [?]
      operator as the bind notation [x <- m ;; k] (scope [rust_scope]);
      panics as [exec] with [expect] and [unwrap]; [Option::transpose] and
      [Option::or_else]; association lists with [IndexMap] insertion
      ([assoc_insert]) and their lemmas; the hint databases [mfe] and
      [mfe_rw]; the tactics [case_match_eq] and [inv_res].
    - [Paths]: turbopath (not under src/, modelled from the spec): a
      path is its list of components; [join_component], [resolve],
      [file_name], [as_str]; [AnchoredSystemPath::new] ([anchored_new],
      with [Path::components] on Unix) and its round trip with
      [as_str]; [AbsoluteSystemPath::new] ([absolute_new]); the file system is a [gmap] from paths to entries (a
      file's text, or an I/O error), read by [read_existing_to_string]
      (absent file: [Ok None]).
    - [Iter]: [Box<dyn Iterator>] as a record packing a state type, its
      [next] and the current state; [<[T]>::iter] and [Iterator::map];
      the run of an iterator to its end ([yields]).
    - [Json]: biome, an external library.  The JSON tree, diagnostics,
      parser options, the parser interface [JsonParser] (a class) and the
      [Deserializable] trait (a class); [deserialize_from_json_str]
      composes them as biome does; [visit_members]/[deserialize_struct]
      are the behaviour of [#[derive(Deserializable)]] (members in order,
      unknown keys a diagnostic); numbers keep their text and [u16]
      fields use [parse_u16].
    - [JsoncParser]: an executable [JsonParser] (comments, strings,
      numbers, literals) on fuel equal to the input length plus one.
      It only runs the concrete inputs: no theorem depends on it.
    - [Crate]: the constants of lib.rs, [DevelopmentTask] with its
      derived order [dt_cmp], the [Error] enum of error.rs (modelled
      from the spec) and the Display message of [UnsupportedVersion].
    - [ConfigV1]: configv1.rs (modelled from the spec).  Types
      [Development], [Application], [ConfigV1], [ChildConfig],
      [ParseResult]; their deserializers; [Module configv1] holds
      [from_str] (reference shape first: a [partOf]-only object parsed
      without any diagnostic), [development_tasks] (an iterator over
      the mapping; [task_list] is what it yields) and [port].  The
      invariant [wf] (distinct keys, ports in [u16]); the abstract view
      [topology] (a [gmap] from names to package, task and port).
    - [Config]: lib.rs's [VersionOnly], [ConfigInner], [Config],
      [sniff_version] and [from_str], the query surface (the boxed
      iterator [development_tasks], [port]), the accessors
      ([Accessors.filename], [Accessors.path], [config_version]),
      [set_path], and the invariant [config_inv] of a [Config].
    - [Loader]: lib.rs's [load], [load_config] (the closure),
      [load_v1_dir] and [load_from_dir]; the specification
      [LoadedFromDir] of directory loading; the life cycle [reachable]
      of a [Config] (created by [from_str], [load] or [load_from_dir],
      changed only by [set_path]).
    - [Tests]: lib.rs's test module: fixtures, the [LoadDirTest]
      builder, the [#[test_case]] list; each test is a proposition
      (no [unwrap] panics and the assertions hold) and a theorem says
      it holds.

    ** What the theorems show
    - Version dispatch ([Config]): the sniffer returns the last
      string-valued [version] member, else "1" ([sniff_version_spec]);
      other versions fail with [UnsupportedVersion]; a file fails with
      [ChildConfig] exactly when it has the reference shape; unparsable
      text fails with [JsonParse]; [UnsupportedVersion] arises exactly
      for a sniffed version other than "1", and never an I/O error; the
      source label changes only the file name and diagnostics; an empty
      [applications] object is a valid configuration with no tasks;
      members the schema does not know are diagnostics only and change
      no result; a [version] that is not a string is not reported as
      unsupported but fails the strict parse with [JsonParse];
      a versionless file that declares applications parses exactly as
      with ["version": "1"] added; every returned [Config] is version
      1, has no path, and satisfies the invariant.
    - Query surface ([Config], over [ConfigV1]): what the iterator of
      [development_tasks] yields and [port] refine the abstract
      [topology]; task names are distinct; every port of a parsed
      configuration fits in a [u16]; the spec's worked example, with
      its tasks in file order.
    - Life cycle ([Loader]): every reachable [Config] satisfies
      [config_inv] (well-formed model; an attached path ends with the
      file name), by induction on [reachable].
    - Loading ([Loader]): [load_v1_dir] is a first-match search over the
      two candidates; [load_from_dir] never panics and returns exactly
      what [LoadedFromDir] specifies; it agrees with [load] on the file
      it picks; preference of the primary file, the alternate file,
      absence as [Ok None], I/O errors not skipped; it reads only the
      two candidate paths; the path it attaches prints to a string that
      [AnchoredSystemPath::new] reads back.  [load] reports absence
      exactly for a missing file.  Composed with the query surface:
      every configuration [load_from_dir] returns yields distinct
      tasks matching its topology and ports in [u16].
    - Order ([Crate]): the derived order of [DevelopmentTask] is the
      spec's lexicographic order (application name, then package, then
      task with [None] first), and it is a total order.
    - Tests ([Tests]): [test_load_dir] (all four cases) and
      [test_unsupported_version_from_dir] pass, for every absolute
      temporary directory path.  [test_unsupported_version] is modelled
      but not stated as a theorem: its snapshot is the only source of
      the message, and its [from_str] half is [from_str_unsupported_version].
    All theorems except those of [Tests] and the witnesses hold for
    every [JsonParser]; the witnesses run [JsoncParser].

    ** Bounds and fuel
    Ports are integers checked against [65535] when read ([parse_u16]).
    The fuel of [JsoncParser] is the input length plus one for the
    lexer and the token count plus one for the parser; each step
    consumes a character or a token, so it is enough.

    ** Not modelled
    biome's tokenizer and error recovery (abstracted by [JsonParser]);
    the Display messages of error.rs other than [UnsupportedVersion]'s,
    whose text is neither in the sources nor in the spec;
    [test_example_parses], whose fixture file [fixtures/sample.jsonc]
    is not in the repository; the proxy that consumes the queries,
    which is not part of the crate; [ensure_dir] (directories are not
    represented in the file system).  What remains of lib.rs outside
    the map is its [mod]/[use] lines and attributes and that test: the
    rest of the program is modelled. *)

From Stdlib Require Export String Ascii ZArith.
From stdpp Require Export base list strings gmap.

Declare Scope rust_scope.
Delimit Scope rust_scope with rust.

(** ** Rust's [Result] and the [?] operator *)

Inductive result (T E : Type) : Type :=
| Ok (t : T)
| Err (e : E).
Arguments Ok {T E} t.
Arguments Err {T E} e.

(** [m?] followed by the rest of the function: an [Err] returns early. *)
Definition rbind {T U E} (m : result T E) (k : T -> result U E) : result U E :=
  match m with
  | Ok t => k t
  | Err e => Err e
  end.

Notation "x <- m ;; k" := (rbind m (fun x => k))
  (at level 100, m at next level, right associativity) : rust_scope.

Definition map_err {T E F} (f : E -> F) (m : result T E) : result T F :=
  match m with
  | Ok t => Ok t
  | Err e => Err (f e)
  end.

(** [Result::and_then] *)
Definition and_then {T U E} (m : result T E) (k : T -> result U E) : result U E :=
  rbind m k.

(** [Option::<Result<T, E>>::transpose] and its inverse on [Result]. *)
Definition transpose_result {T E} (r : result (option T) E) : option (result T E) :=
  match r with
  | Ok None => None
  | Ok (Some t) => Some (Ok t)
  | Err e => Some (Err e)
  end.

(** [Option::or_else] *)
Definition or_else {A} (o : option A) (f : unit -> option A) : option A :=
  match o with
  | Some a => Some a
  | None => f tt
  end.

(** ** Panics: [Option::expect] *)

Inductive exec (A : Type) : Type :=
| Done (a : A)
| Panic (msg : string).
Arguments Done {A} a.
Arguments Panic {A} msg.

Definition ebind {A B} (m : exec A) (k : A -> exec B) : exec B :=
  match m with
  | Done a => k a
  | Panic msg => Panic msg
  end.

Notation "x <-! m ;; k" := (ebind m (fun x => k))
  (at level 100, m at next level, right associativity) : rust_scope.

Definition expect {A} (o : option A) (msg : string) : exec A :=
  match o with
  | Some a => Done a
  | None => Panic msg
  end.

(** [Result::unwrap] *)
Definition unwrap {A E} (r : result A E) : exec A :=
  match r with
  | Ok a => Done a
  | Err _ => Panic "called `Result::unwrap()` on an `Err` value"
  end.

(** ** Association lists in insertion order ([IndexMap]) *)

Section Assoc.
Context {K V : Type} `{EqDecision K}.

Fixpoint assoc_get (k : K) (l : list (K * V)) : option V :=
  match l with
  | [] => None
  | (k', v) :: l' => if decide (k = k') then Some v else assoc_get k l'
  end.

(** [IndexMap::insert]: an existing key keeps its position and takes
    the new value; a new key goes to the end. *)
Fixpoint assoc_insert (k : K) (v : V) (l : list (K * V)) : list (K * V) :=
  match l with
  | [] => [(k, v)]
  | (k', v') :: l' =>
      if decide (k = k') then (k', v) :: l' else (k', v') :: assoc_insert k v l'
  end.

Lemma assoc_get_insert_eq k v l : assoc_get k (assoc_insert k v l) = Some v.
Proof.
  induction l as [|[k' v'] l IH]; simpl; [by rewrite decide_True|].
  case_decide; simpl; [by rewrite decide_True|by rewrite decide_False].
Qed.

Lemma assoc_get_insert_ne k k2 v l :
  k ≠ k2 -> assoc_get k2 (assoc_insert k v l) = assoc_get k2 l.
Proof.
  intros Hne. induction l as [|[k' v'] l IH]; simpl; [by rewrite decide_False|].
  case_decide; simpl; subst; case_decide; done.
Qed.

Lemma fst_assoc_insert k v l :
  map fst (assoc_insert k v l) =
    if decide (k ∈ map fst l) then map fst l else map fst l ++ [k].
Proof.
  induction l as [|[k' v'] l IH]; cbn [assoc_insert map fst].
  - case_decide; set_solver.
  - destruct (decide (k = k')) as [->|Hne]; cbn [map fst].
    + destruct (decide (k' ∈ k' :: map fst l)); [done|set_solver].
    + rewrite IH. do 2 case_decide; set_solver.
Qed.

Lemma assoc_insert_NoDup k v l :
  NoDup (map fst l) -> NoDup (map fst (assoc_insert k v l)).
Proof.
  intros Hnd. rewrite fst_assoc_insert. case_decide; [done|].
  apply NoDup_app. split_and!; [done| |by apply NoDup_singleton].
  set_solver.
Qed.

Lemma elem_of_assoc_insert k v l x :
  x ∈ assoc_insert k v l -> x = (k, v) \/ x ∈ l.
Proof.
  induction l as [|[k' v'] l IH]; simpl; [set_solver|].
  case_decide; subst; rewrite !elem_of_cons; [|intros [->|?]]; naive_solver.
Qed.

Lemma assoc_get_Some_in k v l : assoc_get k l = Some v -> (k, v) ∈ l.
Proof.
  induction l as [|[k' v'] l IH]; simpl; [done|].
  case_decide; [intros [= ->]; subst; left|intros; right]; auto.
Qed.

Lemma assoc_get_None k l : assoc_get k l = None <-> k ∉ map fst l.
Proof.
  induction l as [|[k' v'] l IH]; simpl; [set_solver|].
  case_decide; subst; [split; [done|set_solver]|].
  rewrite IH. set_solver.
Qed.
End Assoc.

(** ** Writing JSON text

    A Rocq string literal cannot hold a lone double quote here, so the
    test inputs are written with a single quote in place of each double
    quote, and [dq] puts the double quotes back. *)
Fixpoint dq (s : string) : string :=
  match s with
  | EmptyString => EmptyString
  | String c s' => String (if Ascii.eqb c "'"%char then "034"%char else c) (dq s')
  end.

(** ** Automation *)

Create HintDb mfe.
Create Rewrite HintDb mfe_rw.
#[export] Hint Resolve assoc_insert_NoDup assoc_get_insert_eq : mfe.
#[export] Hint Rewrite @assoc_get_insert_eq : mfe_rw.

(** Case on the scrutinee of the first [match] of the goal, remembering
    the equation. *)
Ltac case_match_eq :=
  match goal with
  | |- context [match ?x with _ => _ end] =>
      let E := fresh "E" in destruct x eqn:E
  end.

(** Turn [Ok a = Ok b], [Done a = Done b], [Some a = Some b] into
    [a = b], and close contradictory ones. *)
Ltac inv_res :=
  repeat match goal with
  | H : Ok _ = Ok _ |- _ => injection H as H
  | H : Err _ = Err _ |- _ => injection H as H
  | H : Done _ = Done _ |- _ => injection H as H
  | H : Some _ = Some _ |- _ => injection H as H
  | H : Ok _ = Err _ |- _ => discriminate H
  | H : Err _ = Ok _ |- _ => discriminate H
  | H : Done _ = Panic _ |- _ => discriminate H
  | H : Panic _ = Done _ |- _ => discriminate H
  | H : None = Some _ |- _ => discriminate H
  | H : Some _ = None |- _ => discriminate H
  end.
