(* ===== verification/Paths.v ===== *)
(** * Paths and the file system (turbopath, modelled from the spec)

    lib.rs uses the [turbopath] crate of the repository, which is not
    under src/: [AbsoluteSystemPath] (a path from the file-system root),
    [AnchoredSystemPath] (a path relative to the repository root), and
    their operations [join_component], [resolve], [file_name], [as_str]
    and [read_existing_to_string].  A path is the list of its
    components; the file system is a finite map from absolute paths to
    entries, where an entry is either a readable file or one whose read
    fails with an I/O error (permissions, a directory, ...). *)

From S2P Require Import Prelude.

Record AbsoluteSystemPath := AbsPath { abs_components : list string }.
Record AnchoredSystemPath := AnchPath { anc_components : list string }.

#[export] Instance AbsoluteSystemPath_eq_dec : EqDecision AbsoluteSystemPath.
Proof. solve_decision. Defined.
#[export] Instance AnchoredSystemPath_eq_dec : EqDecision AnchoredSystemPath.
Proof. solve_decision. Defined.

(** [AbsoluteSystemPath::join_component] *)
Definition join_component (p : AbsoluteSystemPath) (c : string) : AbsoluteSystemPath :=
  AbsPath (abs_components p ++ [c]).

(** [AnchoredSystemPath::join_component] *)
Definition anchored_join_component (p : AnchoredSystemPath) (c : string) : AnchoredSystemPath :=
  AnchPath (anc_components p ++ [c]).

(** [AbsoluteSystemPath::resolve]: the anchored path read from [root]. *)
Definition resolve (root : AbsoluteSystemPath) (p : AnchoredSystemPath) : AbsoluteSystemPath :=
  AbsPath (abs_components root ++ anc_components p).

(** [Path::file_name]: the last component; [None] for the root. *)
Definition file_name (p : AbsoluteSystemPath) : option string :=
  last (abs_components p).

(** [Path::file_name] of an anchored path. *)
Definition anchored_file_name (p : AnchoredSystemPath) : option string :=
  last (anc_components p).

(** [AbsoluteSystemPath::as_str] on a Unix system. *)
Definition as_str (p : AbsoluteSystemPath) : string :=
  String.append "/" (String.concat "/" (abs_components p)).

(** ** Anchored paths from strings *)

(** The segments of a string between its ['/'] separators. *)
Fixpoint split_slash (s : string) : list string :=
  match s with
  | EmptyString => [EmptyString]
  | String c s' =>
      let segs := split_slash s' in
      if Ascii.eqb c "/"%char then EmptyString :: segs
      else match segs with
           | seg :: rest => String c seg :: rest
           | [] => [String c EmptyString]
           end
  end.

Fixpoint no_slash (s : string) : bool :=
  match s with
  | EmptyString => true
  | String c s' => negb (Ascii.eqb c "/"%char) && no_slash s'
  end.

(** [Path::components] of a relative Unix path: empty segments and
    ["."] segments are dropped, except a leading ["."]. *)
Definition path_components (s : string) : list string :=
  let keep := List.filter (fun seg => negb (String.eqb seg "") && negb (String.eqb seg ".")) in
  match split_slash s with
  | seg :: rest => if String.eqb seg "." then "." :: keep rest else keep (seg :: rest)
  | [] => []
  end.

(** [Path::is_absolute] on Unix: the path starts with ['/']. *)
Definition is_absolute (s : string) : bool :=
  match s with
  | String c _ => Ascii.eqb c "/"%char
  | EmptyString => false
  end.

Inductive PathError :=
| NotRelative (path : string)
| NotAbsolute (path : string).

(** [AbsoluteSystemPath::new]: a relative path is refused; the root is
    not a component. *)
Definition absolute_new (s : string) : result AbsoluteSystemPath PathError :=
  if is_absolute s then Ok (AbsPath (path_components s)) else Err (NotAbsolute s).

(** [AnchoredSystemPath::new]: an absolute path is refused. *)
Definition anchored_new (s : string) : result AnchoredSystemPath PathError :=
  if is_absolute s then Err (NotRelative s) else Ok (AnchPath (path_components s)).

(** [AnchoredSystemPath::as_str] on a Unix system. *)
Definition anchored_as_str (p : AnchoredSystemPath) : string :=
  String.concat "/" (anc_components p).

(** A component a path can hold as it is: not empty, not ["."], and
    without a separator. *)
Definition normal_component (c : string) : bool :=
  negb (String.eqb c "") && negb (String.eqb c ".") && no_slash c.

(** ** The file system *)

Inductive IoErrorKind :=
| PermissionDenied
| IsADirectory
| OtherIo (msg : string).

#[export] Instance IoErrorKind_eq_dec : EqDecision IoErrorKind.
Proof. solve_decision. Defined.

Record IoError := { io_kind : IoErrorKind }.

#[export] Instance IoError_eq_dec : EqDecision IoError.
Proof. solve_decision. Defined.

Inductive FsEntry :=
| File (contents : string)
| Unreadable (err : IoError).

Abbreviation FileSystem := (gmap (list string) FsEntry).

(** [AbsoluteSystemPath::read_existing_to_string]: [Ok None] when the
    file does not exist, the contents when it does, and the I/O error
    of any other failure. *)
Definition read_existing_to_string (fs : FileSystem) (p : AbsoluteSystemPath)
  : result (option string) IoError :=
  match fs !! abs_components p with
  | None => Ok None
  | Some (File contents) => Ok (Some contents)
  | Some (Unreadable e) => Err e
  end.

(** ** Lemmas *)

Lemma file_name_join_component p c : file_name (join_component p c) = Some c.
Proof. unfold file_name, join_component. simpl. apply last_snoc. Qed.

Lemma anchored_file_name_join_component p c :
  anchored_file_name (anchored_join_component p c) = Some c.
Proof. unfold anchored_file_name, anchored_join_component. simpl. apply last_snoc. Qed.

Lemma resolve_join_component root p c :
  join_component (resolve root p) c = resolve root (anchored_join_component p c).
Proof. unfold join_component, resolve, anchored_join_component. simpl. by rewrite app_assoc. Qed.

Lemma join_component_inj p c p' c' :
  join_component p c = join_component p' c' -> p = p' /\ c = c'.
Proof.
  destruct p as [l], p' as [l']. unfold join_component. simpl. intros [= H].
  apply app_inj_tail in H as [-> ->]. done.
Qed.

Lemma join_component_ne p c c' :
  c ≠ c' -> abs_components (join_component p c) ≠ abs_components (join_component p c').
Proof. intros Hne Heq. apply Hne. by apply app_inj_tail in Heq as [_ [= ->]]. Qed.

Lemma split_slash_app_slash a s :
  no_slash a = true -> split_slash (String.append a (String "/" s)) = a :: split_slash s.
Proof.
  induction a as [|c a IH]; simpl; [done|]. intros [Hc Ha]%andb_prop.
  rewrite IH by done. apply negb_true_iff in Hc. by rewrite Hc.
Qed.

Lemma split_slash_no_slash a : no_slash a = true -> split_slash a = [a].
Proof.
  induction a as [|c a IH]; simpl; [done|]. intros [Hc Ha]%andb_prop.
  rewrite IH by done. apply negb_true_iff in Hc. by rewrite Hc.
Qed.

Lemma split_slash_concat x l :
  Forall (fun c => no_slash c = true) (x :: l) -> split_slash (String.concat "/" (x :: l)) = x :: l.
Proof.
  revert x. induction l as [|y l IH]; intros x Hl; inversion Hl as [|? ? Hx Hl']; subst.
  - by apply split_slash_no_slash.
  - change (String.concat "/" (x :: y :: l)) with (String.append x (String "/" (String.concat "/" (y :: l)))).
    rewrite split_slash_app_slash by done. by rewrite IH.
Qed.

Lemma filter_forallb {A} (f : A -> bool) l : forallb f l = true -> List.filter f l = l.
Proof. induction l as [|x l IH]; simpl; [done|]. intros [-> ?]%andb_prop. by rewrite IH. Qed.

Lemma forallb_impl {A} (f g : A -> bool) l :
  (forall x, f x = true -> g x = true) -> forallb f l = true -> forallb g l = true.
Proof. intros Hfg. induction l as [|x l IH]; simpl; [done|]. intros [?%Hfg ?]%andb_prop. by rewrite IH, andb_true_r. Qed.

Lemma forallb_Forall {A} (f : A -> bool) l : forallb f l = true -> Forall (fun x => f x = true) l.
Proof. induction l as [|x l IH]; simpl; [constructor|]. intros [? ?]%andb_prop. constructor; auto. Qed.

Lemma is_absolute_concat x l : x ≠ "" -> is_absolute (String.concat "/" (x :: l)) = is_absolute x.
Proof. destruct x as [|c x]; [done|]. by destruct l. Qed.

(** Printing an anchored path whose components are normal and reading
    it back with [AnchoredSystemPath::new] gives the same path. *)
Lemma anchored_new_as_str p :
  forallb normal_component (anc_components p) = true -> anchored_new (anchored_as_str p) = Ok p.
Proof.
  destruct p as [[|x l]]; [done|]. unfold anchored_new, anchored_as_str, path_components.
  cbn [anc_components]. intros Hn. pose proof Hn as [Hx _]%andb_prop.
  unfold normal_component in Hx. apply andb_prop in Hx as [[He Hd]%andb_prop Hs].
  apply negb_true_iff, String.eqb_neq in He, Hd.
  rewrite is_absolute_concat by done. destruct x as [|c x']; [done|]. simpl is_absolute.
  destruct (Ascii.eqb c "/") eqn:Hc; [simpl in Hs; by rewrite Hc in Hs|].
  rewrite split_slash_concat.
  - apply String.eqb_neq in Hd. rewrite Hd, filter_forallb; [done|].
    revert Hn. apply forallb_impl. intros y [[Hy1 Hy2]%andb_prop _]%andb_prop. by rewrite Hy1, Hy2.
  - apply forallb_Forall. revert Hn. apply forallb_impl. by intros y [_ ->]%andb_prop.
Qed.

#[export] Hint Rewrite file_name_join_component anchored_file_name_join_component : mfe_rw.
