(* ===== verification/Iter.v ===== *)
(** * Rust iterators: [Box<dyn Iterator<Item = A>>]

    A boxed trait object hides the iterator's state type: [Iter A]
    packs a state type, its [next] method and the current state.
    [slice_iter] is [<[T]>::iter] (the state is the rest of the slice)
    and [map_iter] is [Iterator::map].  A consumer calls [next] until it
    returns [None]; [yields it l] says that this run is finite and
    produces exactly [l]. *)

From S2P Require Import Prelude.

Record Iter (A : Type) := MkIter {
  it_state : Type;
  it_next : it_state -> option (A * it_state);
  it_cur : it_state
}.
Arguments MkIter {A} _ _ _.
Arguments it_state {A} _.
Arguments it_next {A} _ _.
Arguments it_cur {A} _.

(** [Iterator::next]: the item and the iterator in its new state. *)
Definition next {A} (it : Iter A) : option (A * Iter A) :=
  match it_next it (it_cur it) with
  | None => None
  | Some (a, s) => Some (a, MkIter (it_state it) (it_next it) s)
  end.

(** [<[T]>::iter] *)
Definition slice_next {A} (l : list A) : option (A * list A) :=
  match l with
  | [] => None
  | x :: l' => Some (x, l')
  end.

Definition slice_iter {A} (l : list A) : Iter A := MkIter (list A) slice_next l.

(** [Iterator::map] *)
Definition map_iter {A B} (f : A -> B) (it : Iter A) : Iter B :=
  MkIter (it_state it)
    (fun s => match it_next it s with
              | None => None
              | Some (a, s') => Some (f a, s')
              end)
    (it_cur it).

(** The run of an iterator to its end. *)
Inductive yields {A} : Iter A -> list A -> Prop :=
| yields_done it : next it = None -> yields it []
| yields_next it a it' l : next it = Some (a, it') -> yields it' l -> yields it (a :: l).

#[export] Hint Constructors yields : mfe.

Section IterLemmas.
Context {A : Type}.
Implicit Types (it : Iter A) (l : list A).

Lemma yields_functional it l1 l2 : yields it l1 -> yields it l2 -> l1 = l2.
Proof.
  intros H1. revert l2. induction H1 as [it Hn|it a it' l Hn _ IH]; intros l2 H2;
    inversion H2; simplify_eq; [done|by f_equal; apply IH].
Qed.

Lemma yields_map_slice {B} (f : A -> B) l : yields (map_iter f (slice_iter l)) (map f l).
Proof. induction l as [|x l IH]; simpl; eauto with mfe. Qed.

End IterLemmas.
