(* ===== verification/Json.v ===== *)
(** * JSON trees, diagnostics and the deserializer interface (biome)

    lib.rs calls [biome_deserialize::json::deserialize_from_json_str]
    with [JsonParserOptions::default().with_allow_comments()].  The
    tokenizer and parser of biome are an external library and are not
    modelled: [JsonParser] is the interface they offer (text to an
    optional root value and a list of diagnostics).  The
    [Deserializable] trait is a class, one instance per Rust type that
    derives it; [deserialize_from_json_str] composes the two the way
    biome does, collecting the parser's diagnostics before the
    deserializer's.  Numbers keep their literal text, as biome's syntax
    tree does, and are converted when a typed field is read. *)

From S2P Require Import Prelude.

Inductive json :=
| JNull
| JBool (b : bool)
| JNumber (raw : string)
| JString (s : string)
| JArray (xs : list json)
| JObject (members : list (string * json)).

Inductive Diagnostic :=
| DSyntax (msg : string)
| DUnknownKey (key : string)
| DIncorrectType (name : string) (expected : string)
| DMissingKey (key : string)
| DOutOfRange (name : string).

#[export] Instance Diagnostic_eq_dec : EqDecision Diagnostic.
Proof. solve_decision. Defined.

(** [JsonParserOptions] *)
Record JsonParserOptions := {
  allow_comments : bool;
  allow_trailing_commas : bool
}.

Definition default_options : JsonParserOptions :=
  {| allow_comments := false; allow_trailing_commas := false |}.

(** [JsonParserOptions::with_allow_comments] *)
Definition with_allow_comments (o : JsonParserOptions) : JsonParserOptions :=
  {| allow_comments := true; allow_trailing_commas := allow_trailing_commas o |}.

(** The external parser: the root value it could build, if any, and
    its diagnostics. *)
Class JsonParser := parse_json : JsonParserOptions -> string -> option json * list Diagnostic.

(** The [Deserializable] trait: a value of the type from a JSON value,
    with the diagnostics produced on the way; [name] is the field name
    used in diagnostics. *)
Class Deserializable (T : Type) :=
  deserialize : json -> string -> option T * list Diagnostic.
Arguments deserialize T {_} _ _.

(** [deserialize_from_json_str] followed by [Deserialized::consume]. *)
Definition deserialize_from_json_str `{JsonParser} (T : Type) `{Deserializable T}
    (input : string) (options : JsonParserOptions) (name : string)
  : option T * list Diagnostic :=
  let '(root, pdiags) := parse_json options input in
  match root with
  | None => (None, pdiags)
  | Some v => let '(r, ddiags) := deserialize T v name in (r, pdiags ++ ddiags)
  end.

(** ** Scalar instances *)

#[export] Instance Deserializable_string : Deserializable string :=
  fun v name =>
    match v with
    | JString s => (Some s, [])
    | _ => (None, [DIncorrectType name "string"])
    end.

(** Decimal digits. *)
Definition digit_value (c : ascii) : option Z :=
  let n := Ascii.nat_of_ascii c in
  if (48 <=? n)%nat && (n <=? 57)%nat then Some (Z.of_nat (n - 48)) else None.

Fixpoint decimal_value (acc : Z) (s : string) : option Z :=
  match s with
  | EmptyString => Some acc
  | String c s' =>
      match digit_value c with
      | Some d => decimal_value (acc * 10 + d)%Z s'
      | None => None
      end
  end.

(** [u16::from_str] on the number's text: an optional [+], at least one
    decimal digit and nothing else, and a value below [2^16]. *)
Definition parse_u16 (s : string) : option Z :=
  let digits := match s with
                | String "+"%char s' => s'
                | _ => s
                end in
  match digits with
  | EmptyString => None
  | _ =>
      match decimal_value 0 digits with
      | Some n => if (n <=? 65535)%Z then Some n else None
      | None => None
      end
  end.

(** A port, read as a [u16]. *)
Definition deserialize_u16 (v : json) (name : string) : option Z * list Diagnostic :=
  match v with
  | JNumber raw =>
      match parse_u16 raw with
      | Some n => (Some n, [])
      | None => (None, [DOutOfRange name])
      end
  | _ => (None, [DIncorrectType name "number"])
  end.

(** ** Derived struct deserializers

    [#[derive(Deserializable)]] on a struct expects an object and
    visits its members in order, starting from the struct's default
    value: [visit] updates the partial value for one member (unknown
    keys give a diagnostic and are skipped), [finish] checks the
    required fields.  A member whose visit fails ([None]) fails the
    whole struct. *)
Fixpoint visit_members {S} (visit : S -> string -> json -> option S * list Diagnostic)
    (s : S) (ms : list (string * json)) : option S * list Diagnostic :=
  match ms with
  | [] => (Some s, [])
  | (k, v) :: ms' =>
      let '(r, d) := visit s k v in
      match r with
      | None => (None, d)
      | Some s' => let '(r', d') := visit_members visit s' ms' in (r', d ++ d')
      end
  end.

Definition deserialize_struct {S T} (init : S)
    (visit : S -> string -> json -> option S * list Diagnostic)
    (finish : S -> option T * list Diagnostic) (v : json) (name : string)
  : option T * list Diagnostic :=
  match v with
  | JObject ms =>
      let '(r, d) := visit_members visit init ms in
      match r with
      | None => (None, d)
      | Some s => let '(t, d') := finish s in (t, d ++ d')
      end
  | _ => (None, [DIncorrectType name "object"])
  end.

(** ** Lemmas *)

Lemma deserialize_from_json_str_Some `{JsonParser} T `{Deserializable T} input o name t d :
  deserialize_from_json_str T input o name = (Some t, d) ->
  exists v d1 d2, parse_json o input = (Some v, d1) /\ deserialize T v name = (Some t, d2)
                  /\ d = d1 ++ d2.
Proof.
  unfold deserialize_from_json_str.
  destruct (parse_json o input) as [[v|] d1]; [|done].
  destruct (deserialize T v name) as [r d2] eqn:E. intros [= -> <-].
  do 3 eexists. split_and!; [reflexivity|exact E|reflexivity].
Qed.

(** An invariant of the partial struct that every member visit keeps. *)
Section VisitInvariant.
Context {S T : Type} (P : S -> Prop) (Q : T -> Prop).
Context (visit : S -> string -> json -> option S * list Diagnostic).
Hypothesis visit_inv : forall s k v s' d, P s -> visit s k v = (Some s', d) -> P s'.

Lemma visit_members_inv ms : forall s s' d,
  P s -> visit_members visit s ms = (Some s', d) -> P s'.
Proof.
  induction ms as [|[k v] ms IH]; simpl; intros s s' d Hs.
  - by intros [= <- _].
  - destruct (visit s k v) as [[s1|] d1] eqn:E; [|done].
    destruct (visit_members visit s1 ms) as [r d'] eqn:E'. intros [= -> _].
    eapply IH; [|exact E']. eauto.
Qed.

Lemma deserialize_struct_inv init finish v name t :
  P init ->
  (forall s t d, P s -> finish s = (Some t, d) -> Q t) ->
  (deserialize_struct init visit finish v name).1 = Some t -> Q t.
Proof.
  intros Hinit Hfin. unfold deserialize_struct. destruct v; try done.
  destruct (visit_members visit init members) as [[s|] d1] eqn:E; [|done].
  destruct (finish s) as [r d2] eqn:F. simpl. intros ->.
  eapply Hfin, F. eapply visit_members_inv; eauto.
Qed.
End VisitInvariant.

(** A member the visitor rejects from every state fails the whole
    struct, wherever it stands. *)
Lemma visit_members_None {S} (visit : S -> string -> json -> option S * list Diagnostic) ms k v :
  (k, v) ∈ ms -> (forall s, (visit s k v).1 = None) -> forall s, (visit_members visit s ms).1 = None.
Proof.
  intros Hin Hrej. induction ms as [|[k' v'] ms IH]; [by apply elem_of_nil in Hin|]. intros s. simpl.
  apply elem_of_cons in Hin as [[= -> ->]|Hin].
  - specialize (Hrej s). destruct (visit s k' v') as [[s'|] d]; [done|done].
  - destruct (visit s k' v') as [[s'|] d]; [|done].
    specialize (IH Hin s'). destruct (visit_members visit s' ms). done.
Qed.

Lemma decimal_value_nonneg acc s n :
  (0 <= acc)%Z -> decimal_value acc s = Some n -> (0 <= n)%Z.
Proof.
  revert acc. induction s as [|c s IH]; simpl; intros acc Hacc H.
  - by inv_res; subst.
  - unfold digit_value in H. destruct (_ && _); [|done].
    eapply IH; [|exact H]. lia.
Qed.

Lemma parse_u16_bounds s n : parse_u16 s = Some n -> (0 <= n < 65536)%Z.
Proof.
  unfold parse_u16. intros H.
  repeat case_match; inv_res; subst; try done;
    match goal with
    | E : decimal_value 0 _ = Some ?m, L : (?m <=? 65535)%Z = true |- _ =>
        apply decimal_value_nonneg in E; [|lia]; apply Z.leb_le in L; lia
    end.
Qed.

Lemma deserialize_u16_bounds v name n :
  (deserialize_u16 v name).1 = Some n -> (0 <= n < 65536)%Z.
Proof.
  unfold deserialize_u16. destruct v; try done.
  destruct (parse_u16 raw) eqn:E; [|done]. simpl. intros [= <-].
  by eapply parse_u16_bounds.
Qed.
