(* ===== verification/JsoncParser.v ===== *)
(** * An executable JSONC parser, an instance of [JsonParser]

    biome's parser is external to the repository; the theorems of the
    development hold for every [JsonParser].  This instance makes the
    repository's test inputs executable: a tokenizer (whitespace, the
    [//] and [/* */] comments when [allow_comments] is set, strings with
    the simple escapes, numbers kept as their text, literals) and a
    recursive-descent parser.  Both run on fuel; the fuel given by
    [parse_jsonc] is the input length plus one, and each step consumes
    at least one character or token, so it does not run out.  A
    syntax error yields no root value and one [DSyntax] diagnostic. *)

From S2P Require Import Prelude Json.

Inductive token :=
| TLBrace | TRBrace | TLBrack | TRBrack | TColon | TComma
| TStr (s : string)
| TNum (raw : string)
| TTrue | TFalse | TNull.

Definition is_ws (c : ascii) : bool :=
  match Ascii.nat_of_ascii c with
  | 32 | 9 | 10 | 13 => true
  | _ => false
  end.

Definition is_num_char (c : ascii) : bool :=
  let n := Ascii.nat_of_ascii c in
  ((48 <=? n) && (n <=? 57))%nat || Ascii.eqb c "-" || Ascii.eqb c "+"
  || Ascii.eqb c "." || Ascii.eqb c "e" || Ascii.eqb c "E".

(** The rest of a line comment. *)
Fixpoint skip_line (s : string) : string :=
  match s with
  | EmptyString => EmptyString
  | String c s' => if Ascii.eqb c "010"%char then s' else skip_line s'
  end.

(** The rest of a block comment, after its [*/]. *)
Fixpoint skip_block (s : string) : option string :=
  match s with
  | EmptyString => None
  | String "*" (String "/" s') => Some s'
  | String _ s' => skip_block s'
  end.

(** A string literal's contents, after the opening quote. *)
Fixpoint lex_string (s : string) : option (string * string) :=
  match s with
  | EmptyString => None
  | String c s' =>
      if Ascii.eqb c "034"%char then Some (EmptyString, s')
      else if Ascii.eqb c "\"%char then
        match s' with
        | String e s'' =>
            let c' := if Ascii.eqb e "n" then Some "010"%char
                      else if Ascii.eqb e "t" then Some "009"%char
                      else if Ascii.eqb e "r" then Some "013"%char
                      else if Ascii.eqb e "034"%char then Some e
                      else if Ascii.eqb e "\" then Some e
                      else if Ascii.eqb e "/" then Some e
                      else None in
            match c', lex_string s'' with
            | Some c', Some (str, rest) => Some (String c' str, rest)
            | _, _ => None
            end
        | EmptyString => None
        end
      else
        match lex_string s' with
        | Some (str, rest) => Some (String c str, rest)
        | None => None
        end
  end.

(** The longest prefix of number characters. *)
Fixpoint span_num (s : string) : string * string :=
  match s with
  | String c s' =>
      if is_num_char c then let '(n, r) := span_num s' in (String c n, r) else (EmptyString, s)
  | EmptyString => (EmptyString, EmptyString)
  end.

Fixpoint lex (fuel : nat) (comments : bool) (s : string) : option (list token) :=
  match fuel with
  | 0 => None
  | S f =>
      let punct t s' := (t ::.) <$> lex f comments s' in
      match s with
      | EmptyString => Some []
      | String c s' =>
          if is_ws c then lex f comments s'
          else if Ascii.eqb c "{" then punct TLBrace s'
          else if Ascii.eqb c "}" then punct TRBrace s'
          else if Ascii.eqb c "[" then punct TLBrack s'
          else if Ascii.eqb c "]" then punct TRBrack s'
          else if Ascii.eqb c ":" then punct TColon s'
          else if Ascii.eqb c "," then punct TComma s'
          else if Ascii.eqb c "034"%char then
            match lex_string s' with
            | Some (str, rest) => punct (TStr str) rest
            | None => None
            end
          else if Ascii.eqb c "/" && comments then
            match s' with
            | String "/" r => lex f comments (skip_line r)
            | String "*" r => skip_block r ≫= lex f comments
            | _ => None
            end
          else if is_num_char c then
            let '(raw, rest) := span_num s in punct (TNum raw) rest
          else match s with
               | String "t" (String "r" (String "u" (String "e" r))) => punct TTrue r
               | String "f" (String "a" (String "l" (String "s" (String "e" r)))) => punct TFalse r
               | String "n" (String "u" (String "l" (String "l" r))) => punct TNull r
               | _ => None
               end
      end
  end.

Fixpoint parse_value (fuel : nat) (ts : list token) : option (json * list token) :=
  match fuel with
  | 0 => None
  | S f =>
      match ts with
      | TNull :: r => Some (JNull, r)
      | TTrue :: r => Some (JBool true, r)
      | TFalse :: r => Some (JBool false, r)
      | TStr s :: r => Some (JString s, r)
      | TNum n :: r => Some (JNumber n, r)
      | TLBrace :: TRBrace :: r => Some (JObject [], r)
      | TLBrace :: r => parse_members f r []
      | TLBrack :: TRBrack :: r => Some (JArray [], r)
      | TLBrack :: r => parse_elements f r []
      | _ => None
      end
  end
with parse_members (fuel : nat) (ts : list token) (acc : list (string * json))
  : option (json * list token) :=
  match fuel with
  | 0 => None
  | S f =>
      match ts with
      | TStr k :: TColon :: r =>
          match parse_value f r with
          | Some (v, TComma :: r') => parse_members f r' (acc ++ [(k, v)])
          | Some (v, TRBrace :: r') => Some (JObject (acc ++ [(k, v)]), r')
          | _ => None
          end
      | _ => None
      end
  end
with parse_elements (fuel : nat) (ts : list token) (acc : list json)
  : option (json * list token) :=
  match fuel with
  | 0 => None
  | S f =>
      match parse_value f ts with
      | Some (v, TComma :: r') => parse_elements f r' (acc ++ [v])
      | Some (v, TRBrack :: r') => Some (JArray (acc ++ [v]), r')
      | _ => None
      end
  end.

Definition parse_jsonc (options : JsonParserOptions) (s : string)
  : option json * list Diagnostic :=
  match lex (S (String.length s)) (allow_comments options) s with
  | None => (None, [DSyntax "invalid token"])
  | Some ts =>
      match parse_value (S (length ts)) ts with
      | Some (v, []) => (Some v, [])
      | _ => (None, [DSyntax "unexpected token"])
      end
  end.

(** Not a global instance: the theorems of the development are stated
    for any parser, and only the concrete runs select this one. *)
Definition jsonc_parser : JsonParser := parse_jsonc.
