(* ===== verification/Crate.v ===== *)
(** * Crate-level items: constants, [DevelopmentTask], [Error]

    The constants and [DevelopmentTask] of lib.rs, which both
    [configv1] and the dispatcher use, and the [Error] enum of the
    crate's error.rs (not under src/, modelled from the spec: one
    variant per failure of section 7).  The Display message of
    [UnsupportedVersion] is the one the test [test_unsupported_version]
    snapshots. *)

From S2P Require Import Prelude Paths Json.

Definition DEFAULT_MICROFRONTENDS_CONFIG_V1 : string := "microfrontends.json".
Definition DEFAULT_MICROFRONTENDS_CONFIG_V1_ALT : string := "microfrontends.jsonc".
Definition MICROFRONTENDS_PACKAGE : string := "@vercel/microfrontends".
Definition SUPPORTED_VERSIONS : list string := ["1"].

(** [DevelopmentTask<'a>]: the borrowed strings become owned values;
    the derived order is lexicographic over the three fields. *)
Record DevelopmentTask := {
  application_name : string;
  package : string;
  task : option string
}.

#[export] Instance DevelopmentTask_eq_dec : EqDecision DevelopmentTask.
Proof. solve_decision. Defined.

(** The derived [Ord] of [Option<&str>]: [None] first. *)
Definition option_str_cmp (o1 o2 : option string) : comparison :=
  match o1, o2 with
  | None, None => Eq
  | None, Some _ => Lt
  | Some _, None => Gt
  | Some s1, Some s2 => String.compare s1 s2
  end.

(** The derived [Ord] of [DevelopmentTask]: lexicographic over the
    fields in declaration order; [&str] compares bytewise. *)
Definition dt_cmp (a b : DevelopmentTask) : comparison :=
  match String.compare (application_name a) (application_name b) with
  | Eq =>
      match String.compare (package a) (package b) with
      | Eq => option_str_cmp (task a) (task b)
      | c => c
      end
  | c => c
  end.

(** The lexicographic step shared by the three laws: the first
    component decides unless it is [Eq]. *)
Definition lex (c : comparison) (k : comparison) : comparison :=
  match c with Eq => k | c => c end.

Inductive Error :=
| UnsupportedVersion (version : string)
| ChildConfig (reference : string)
| Io (e : IoError)
| JsonParse (diags : list Diagnostic).

#[export] Instance Error_eq_dec : EqDecision Error.
Proof. solve_decision. Defined.

(** [impl From<io::Error> for Error], used by [?] on I/O results. *)
Definition error_of_io (e : IoError) : Error := Io e.

(** [{:?}] of a [&[&str]]: the strings quoted, comma separated, in
    brackets. *)
Definition debug_quote (s : string) : string :=
  String "034"%char (String.append s (String "034"%char EmptyString)).

Definition debug_str_slice (l : list string) : string :=
  String.append "[" (String.append (String.concat ", " (map debug_quote l)) "]").

(** The Display message of [UnsupportedVersion]. *)
Definition unsupported_version_message (version : string) : string :=
  String.append "Unsupported microfrontends configuration version: "
    (String.append version
       (String.append ". Supported versions: " (debug_str_slice SUPPORTED_VERSIONS))).

(** ** The derived order of [DevelopmentTask] is a total order *)

Lemma string_compare_refl s : String.compare s s = Eq.
Proof.
  induction s as [|a s IH]; simpl; [done|].
  unfold Ascii.compare. by rewrite N.compare_refl.
Qed.

Lemma string_compare_eq s1 s2 : String.compare s1 s2 = Eq <-> s1 = s2.
Proof. split; [apply String.compare_eq_iff|intros ->; apply string_compare_refl]. Qed.

Lemma ascii_compare_trans a1 a2 a3 c :
  c ≠ Eq -> Ascii.compare a1 a2 = c -> Ascii.compare a2 a3 = c -> Ascii.compare a1 a3 = c.
Proof.
  unfold Ascii.compare. intros Hc.
  destruct c; [done| rewrite !N.compare_lt_iff; lia | rewrite !N.compare_gt_iff; lia].
Qed.

Lemma string_compare_trans s1 s2 s3 c :
  String.compare s1 s2 = c -> String.compare s2 s3 = c -> String.compare s1 s3 = c.
Proof.
  destruct (decide (c = Eq)) as [->|Hc].
  { by intros ->%string_compare_eq ->%string_compare_eq; apply string_compare_refl. }
  revert s2 s3. induction s1 as [|a1 s1 IH]; intros [|a2 s2] [|a3 s3]; simpl;
    intros H12 H23; try congruence.
  destruct (Ascii.compare a1 a2) eqn:E12; simpl in *.
  - apply Ascii.compare_eq_iff in E12 as ->.
    destruct (Ascii.compare a2 a3) eqn:E23; simpl in *; try congruence. eauto.
  - subst c. destruct (Ascii.compare a2 a3) eqn:E23; simpl in *; try congruence.
    + apply Ascii.compare_eq_iff in E23 as ->. by rewrite E12.
    + by rewrite (ascii_compare_trans a1 a2 a3 Lt).
  - subst c. destruct (Ascii.compare a2 a3) eqn:E23; simpl in *; try congruence.
    + apply Ascii.compare_eq_iff in E23 as ->. by rewrite E12.
    + by rewrite (ascii_compare_trans a1 a2 a3 Gt).
Qed.

Lemma option_str_cmp_eq o1 o2 : option_str_cmp o1 o2 = Eq <-> o1 = o2.
Proof.
  destruct o1, o2; simpl; try (split; congruence).
  rewrite string_compare_eq. split; congruence.
Qed.

Lemma option_str_cmp_antisym o1 o2 : option_str_cmp o2 o1 = CompOpp (option_str_cmp o1 o2).
Proof. destruct o1, o2; simpl; try done. apply String.compare_antisym. Qed.

Lemma option_str_cmp_trans o1 o2 o3 c :
  option_str_cmp o1 o2 = c -> option_str_cmp o2 o3 = c -> option_str_cmp o1 o3 = c.
Proof.
  destruct o1, o2, o3; simpl; intros; subst; try done; eauto using string_compare_trans.
Qed.

Lemma dt_cmp_lex a b :
  dt_cmp a b = lex (String.compare (application_name a) (application_name b))
                 (lex (String.compare (package a) (package b)) (option_str_cmp (task a) (task b))).
Proof. unfold dt_cmp, lex. by repeat case_match. Qed.

Lemma lex_eq c k : lex c k = Eq <-> c = Eq /\ k = Eq.
Proof. destruct c; simpl; naive_solver. Qed.

Lemma lex_antisym c k : lex (CompOpp c) (CompOpp k) = CompOpp (lex c k).
Proof. by destruct c. Qed.

Lemma lex_string_trans x1 x2 x3 k12 k23 k13 c :
  (x1 = x2 -> x2 = x3 -> k12 = c -> k23 = c -> k13 = c) ->
  lex (String.compare x1 x2) k12 = c -> lex (String.compare x2 x3) k23 = c ->
  lex (String.compare x1 x3) k13 = c.
Proof.
  intros Hk H12 H23.
  destruct (String.compare x1 x2) eqn:E12; simpl in H12.
  - apply string_compare_eq in E12 as <-.
    destruct (String.compare x1 x3) eqn:E13; simpl in *; [|done|done].
    apply string_compare_eq in E13 as <-. eauto.
  - subst c. destruct (String.compare x2 x3) eqn:E23; simpl in H23.
    + apply string_compare_eq in E23 as <-. by rewrite E12.
    + by rewrite (string_compare_trans x1 x2 x3 Lt).
    + done.
  - subst c. destruct (String.compare x2 x3) eqn:E23; simpl in H23.
    + apply string_compare_eq in E23 as <-. by rewrite E12.
    + done.
    + by rewrite (string_compare_trans x1 x2 x3 Gt).
Qed.

Lemma dt_cmp_eq a b : dt_cmp a b = Eq <-> a = b.
Proof.
  rewrite dt_cmp_lex, !lex_eq, !string_compare_eq, option_str_cmp_eq.
  destruct a, b; simpl. naive_solver.
Qed.

Lemma dt_cmp_antisym a b : dt_cmp b a = CompOpp (dt_cmp a b).
Proof.
  rewrite !dt_cmp_lex, (String.compare_antisym (application_name b)),
    (String.compare_antisym (package b)), option_str_cmp_antisym.
  by rewrite !lex_antisym.
Qed.

Lemma dt_cmp_trans a b d c : dt_cmp a b = c -> dt_cmp b d = c -> dt_cmp a d = c.
Proof.
  rewrite !dt_cmp_lex. apply lex_string_trans. intros _ _.
  apply lex_string_trans. intros _ _. apply option_str_cmp_trans.
Qed.

(** The field priority of the derived order: the application name
    decides first, the package when the names are equal, and a missing
    task comes before a present one. *)
Lemma dt_cmp_application_first a b :
  String.compare (application_name a) (application_name b) ≠ Eq ->
  dt_cmp a b = String.compare (application_name a) (application_name b).
Proof. unfold dt_cmp. by destruct (String.compare _ _). Qed.

Lemma dt_cmp_package_second a b :
  application_name a = application_name b ->
  String.compare (package a) (package b) ≠ Eq ->
  dt_cmp a b = String.compare (package a) (package b).
Proof. unfold dt_cmp. intros ->. rewrite string_compare_refl. by destruct (String.compare _ _). Qed.

Lemma dt_cmp_task_none_first a b s :
  application_name a = application_name b -> package a = package b ->
  task a = None -> task b = Some s -> dt_cmp a b = Lt.
Proof. unfold dt_cmp. intros -> -> -> ->. by rewrite !string_compare_refl. Qed.

(** C20: the derived order of [DevelopmentTask] is the lexicographic
    order of the spec: the application name decides first, then the
    package, then the task with [None] before [Some]; and it is a total
    order (a comparison is [Eq] exactly on equal tasks, swapping the
    arguments reverses it, it is transitive). *)
Theorem dt_cmp_total_order :
  (forall a b, String.compare (application_name a) (application_name b) ≠ Eq ->
     dt_cmp a b = String.compare (application_name a) (application_name b)) /\
  (forall a b, application_name a = application_name b ->
     String.compare (package a) (package b) ≠ Eq ->
     dt_cmp a b = String.compare (package a) (package b)) /\
  (forall a b s, application_name a = application_name b -> package a = package b ->
     task a = None -> task b = Some s -> dt_cmp a b = Lt) /\
  (forall a b, dt_cmp a b = Eq <-> a = b) /\
  (forall a b, dt_cmp b a = CompOpp (dt_cmp a b)) /\
  (forall a b d c, dt_cmp a b = c -> dt_cmp b d = c -> dt_cmp a d = c).
Proof.
  split_and!; [exact dt_cmp_application_first|exact dt_cmp_package_second|exact dt_cmp_task_none_first
              |exact dt_cmp_eq|exact dt_cmp_antisym|exact dt_cmp_trans].
Qed.
