(* ===== verification/ConfigV1.v ===== *)
(** * The version-1 schema parser (configv1.rs, modelled from the spec)

    [ConfigV1] owns the application mapping in insertion order (an
    association list with [IndexMap] insertion: a repeated key keeps
    its first position and takes the last value).  Each application
    optionally overrides its package name, names a development task,
    and declares a port.  [from_str] first tries the reference shape
    (a [ChildConfig] whose only member is [partOf]; it counts only when
    that deserialization produced no diagnostic at all), then the full
    schema; unknown keys are diagnostics and are skipped, a value of
    the wrong type or a port outside [u16] fails the parse, and a
    missing [applications] member fails it too.

    The invariant [wf] (keys distinct, ports within [u16]) holds of
    every parsed configuration ([from_str_wf]); [development_tasks] and
    [port] are the query surface of section 4.5 of the spec. *)

From S2P Require Import Prelude Paths Iter Json Crate.

Record Development := { dev_task : option string }.

Record Application := {
  package_name : option string;
  development : option Development;
  app_port : option Z
}.

Record ConfigV1 := { applications : list (string * Application) }.

Record ChildConfig := { part_of : string }.

Inductive ParseResult :=
| Actual (config : ConfigV1)
| Reference (default_app : string).

(** ** Deserialization *)

(** The result of a typed read mapped into the partial struct. *)
Definition set_field {A S} (r : option A * list Diagnostic) (upd : A -> S)
  : option S * list Diagnostic :=
  (option_map upd r.1, r.2).

Definition visit_development (d : Development) (k : string) (v : json)
  : option Development * list Diagnostic :=
  if decide (k = "task") then set_field (deserialize string v k) (fun t => {| dev_task := Some t |})
  else (Some d, [DUnknownKey k]).

#[export] Instance Deserializable_Development : Deserializable Development :=
  deserialize_struct {| dev_task := None |} visit_development (fun d => (Some d, [])).

Definition visit_application (a : Application) (k : string) (v : json)
  : option Application * list Diagnostic :=
  if decide (k = "packageName") then
    set_field (deserialize string v k)
      (fun p => {| package_name := Some p; development := development a; app_port := app_port a |})
  else if decide (k = "development") then
    set_field (deserialize Development v k)
      (fun d => {| package_name := package_name a; development := Some d; app_port := app_port a |})
  else if decide (k = "port") then
    set_field (deserialize_u16 v k)
      (fun n => {| package_name := package_name a; development := development a; app_port := Some n |})
  else (Some a, [DUnknownKey k]).

Definition empty_application : Application :=
  {| package_name := None; development := None; app_port := None |}.

#[export] Instance Deserializable_Application : Deserializable Application :=
  deserialize_struct empty_application visit_application (fun a => (Some a, [])).

(** The [applications] object: each member is an application. *)
Definition visit_applications (apps : list (string * Application)) (k : string) (v : json)
  : option (list (string * Application)) * list Diagnostic :=
  set_field (deserialize Application v k) (fun a => assoc_insert k a apps).

Definition deserialize_applications : json -> string ->
    option (list (string * Application)) * list Diagnostic :=
  deserialize_struct [] visit_applications (fun apps => (Some apps, [])).

Definition visit_config (s : option (list (string * Application))) (k : string) (v : json)
  : option (option (list (string * Application))) * list Diagnostic :=
  if decide (k = "version") then set_field (deserialize string v k) (fun _ => s)
  else if decide (k = "applications") then set_field (deserialize_applications v k) Some
  else (Some s, [DUnknownKey k]).

Definition finish_config (s : option (list (string * Application)))
  : option ConfigV1 * list Diagnostic :=
  match s with
  | Some apps => (Some {| applications := apps |}, [])
  | None => (None, [DMissingKey "applications"])
  end.

#[export] Instance Deserializable_ConfigV1 : Deserializable ConfigV1 :=
  deserialize_struct None visit_config finish_config.

Definition visit_child (s : option string) (k : string) (v : json)
  : option (option string) * list Diagnostic :=
  if decide (k = "partOf") then set_field (deserialize string v k) Some
  else (Some s, [DUnknownKey k]).

Definition finish_child (s : option string) : option ChildConfig * list Diagnostic :=
  match s with
  | Some p => (Some {| part_of := p |}, [])
  | None => (None, [DMissingKey "partOf"])
  end.

#[export] Instance Deserializable_ChildConfig : Deserializable ChildConfig :=
  deserialize_struct None visit_child finish_child.

(** [JsonParserOptions::default().with_allow_comments()] *)
Definition parser_options : JsonParserOptions := with_allow_comments default_options.

(** The functions of [impl ConfigV1], by the path lib.rs calls them
    with ([configv1::ConfigV1::from_str] and the methods). *)
Module configv1.

Section Parse.
Context `{JsonParser}.

(** [ConfigV1::from_str]: a reference when the child shape parses
    without any diagnostic, otherwise the full schema. *)
Definition from_str (input source : string) : result ParseResult Error :=
  let '(child, errs) := deserialize_from_json_str ChildConfig input parser_options source in
  match (if decide (errs = []) then child else None) with
  | Some c => Ok (Reference (part_of c))
  | None =>
      let '(config, errs) := deserialize_from_json_str ConfigV1 input parser_options source in
      match config with
      | Some c => Ok (Actual c)
      | None => Err (JsonParse errs)
      end
  end.
End Parse.

(** ** The query surface *)

(** [Application::package_name]: the override, or the key. *)
Definition package_name_or (a : Application) (key : string) : string :=
  default key (package_name a).

Definition development_task_of (key : string) (a : Application) : DevelopmentTask :=
  {| application_name := key;
     package := package_name_or a key;
     task := development a ≫= dev_task |}.

(** The tasks in the order of the mapping: what the iterator of
    [development_tasks] yields. *)
Definition task_list (c : ConfigV1) : list DevelopmentTask :=
  map (fun '(k, a) => development_task_of k a) (applications c).

(** [ConfigV1::development_tasks]: [self.applications.iter().map(..)]. *)
Definition development_tasks (c : ConfigV1) : Iter DevelopmentTask :=
  map_iter (fun '(k, a) => development_task_of k a) (slice_iter (applications c)).

(** [ConfigV1::port] *)
Definition port (c : ConfigV1) (name : string) : option Z :=
  assoc_get name (applications c) ≫= app_port.

End configv1.
Import configv1.

(** The invariant of a parsed configuration. *)
Definition wf (c : ConfigV1) : Prop :=
  NoDup (map fst (applications c)) /\
  forall k a n, (k, a) ∈ applications c -> app_port a = Some n -> (0 <= n < 65536)%Z.

(** A member of the reference shape: [partOf] with a string value. *)
Definition is_part_of (m : string * json) : Prop := m.1 = "partOf" /\ exists x, m.2 = JString x.

(** The invariant of the partial values built during deserialization. *)
Definition port_ok (a : Application) : Prop :=
  forall n, app_port a = Some n -> (0 <= n < 65536)%Z.

Definition apps_ok (apps : list (string * Application)) : Prop :=
  NoDup (map fst apps) /\ forall k a, (k, a) ∈ apps -> port_ok a.

(** ** The abstract view: a finite map from application names

    What the query surface promises, independent of the insertion
    order: each application name denotes its package, its development
    task and its port. *)
Record AppView := { view_package : string; view_task : option string; view_port : option Z }.

Definition view_of (key : string) (a : Application) : AppView :=
  {| view_package := package_name_or a key;
     view_task := development a ≫= dev_task;
     view_port := app_port a |}.

Definition topology (c : ConfigV1) : gmap string AppView :=
  list_to_map (map (fun '(k, a) => (k, view_of k a)) (applications c)).

(** ** Lemmas *)

Lemma set_field_Some {A S} (r : option A * list Diagnostic) (upd : A -> S) s d :
  set_field r upd = (Some s, d) -> exists x, r.1 = Some x /\ s = upd x.
Proof. destruct r as [[x|] ?]; simpl; [intros [= <- _]; eauto|done]. Qed.

Lemma visit_application_port_ok a k v a' d :
  port_ok a -> visit_application a k v = (Some a', d) -> port_ok a'.
Proof.
  unfold visit_application. intros Ha.
  repeat case_decide; try (intros [= <- _]; exact Ha);
    intros (x & Hx & ->)%set_field_Some; try exact Ha.
  intros n [= <-]. by apply (deserialize_u16_bounds v k).
Qed.

(** An application object holding only a port deserializes as the port
    does. *)
Lemma deserialize_port_only v k :
  deserialize Application (JObject [("port", v)]) k =
    match deserialize_u16 v "port" with
    | (Some n, d) => (Some {| package_name := None; development := None; app_port := Some n |}, d)
    | (None, d) => (None, d)
    end.
Proof.
  cbn [deserialize Deserializable_Application deserialize_struct visit_members].
  unfold visit_application. rewrite decide_False, decide_False, decide_True by done.
  unfold set_field. destruct (deserialize_u16 v "port") as [[n|] d]; simpl; by rewrite ?app_nil_r.
Qed.

(** A configuration whose only application declares only a port
    deserializes as the port does. *)
Lemma deserialize_config_port_only k v name :
  deserialize ConfigV1 (JObject [("applications", JObject [(k, JObject [("port", v)])])]) name =
    match deserialize_u16 v "port" with
    | (Some n, d) =>
        (Some {| applications := [(k, {| package_name := None; development := None; app_port := Some n |})] |}, d)
    | (None, d) => (None, d)
    end.
Proof.
  cbn [deserialize Deserializable_ConfigV1 deserialize_struct visit_members].
  unfold visit_config. rewrite decide_False, decide_True by done.
  unfold set_field, deserialize_applications. cbn [deserialize_struct visit_members].
  unfold visit_applications, set_field. rewrite deserialize_port_only.
  destruct (deserialize_u16 v "port") as [[n|] d]; simpl; by rewrite ?app_nil_r.
Qed.

Lemma deserialize_application_port_ok v k a :
  (deserialize Application v k).1 = Some a -> port_ok a.
Proof.
  apply deserialize_struct_inv with (P := port_ok).
  - exact visit_application_port_ok.
  - by intros n.
  - by intros s t d Hs [= <-].
Qed.

Lemma visit_applications_ok apps k v apps' d :
  apps_ok apps -> visit_applications apps k v = (Some apps', d) -> apps_ok apps'.
Proof.
  intros [Hnd Hports] (a & Ha & ->)%set_field_Some.
  split; [by apply assoc_insert_NoDup|].
  intros k' a' [[= -> ->]|Hin]%elem_of_assoc_insert; eauto using deserialize_application_port_ok.
Qed.

Lemma deserialize_applications_ok v k apps :
  (deserialize_applications v k).1 = Some apps -> apps_ok apps.
Proof.
  apply deserialize_struct_inv with (P := apps_ok).
  - exact visit_applications_ok.
  - split; [constructor|set_solver].
  - by intros s t d Hs [= <-].
Qed.

Lemma visit_config_ok s k v s' d :
  (forall apps, s = Some apps -> apps_ok apps) ->
  visit_config s k v = (Some s', d) -> forall apps, s' = Some apps -> apps_ok apps.
Proof.
  unfold visit_config. intros Hs.
  repeat case_decide; try (intros [= <- _]; exact Hs);
    intros (x & Hx & ->)%set_field_Some; [exact Hs|].
  intros apps [= ->]. by eapply deserialize_applications_ok.
Qed.

Lemma deserialize_config_wf v name c :
  (deserialize ConfigV1 v name).1 = Some c -> wf c.
Proof.
  apply deserialize_struct_inv with (P := fun s => forall apps, s = Some apps -> apps_ok apps).
  - exact visit_config_ok.
  - done.
  - intros [apps|] t d Hs; simpl; [intros [= <-]|done].
    destruct (Hs apps eq_refl) as [Hnd Hp]. split; [done|]. intros k a n Hin. by apply Hp with k.
Qed.

(** Every configuration [from_str] returns satisfies the invariant. *)
Theorem from_str_wf `{JsonParser} input source c :
  from_str input source = Ok (Actual c) -> wf c.
Proof.
  unfold from_str.
  destruct (deserialize_from_json_str ChildConfig _ _ _) as [child errs].
  destruct (if decide (errs = []) then child else None); [done|].
  destruct (deserialize_from_json_str ConfigV1 input parser_options source) as [[c'|] d] eqn:E;
    [|done].
  intros [= <-]. apply deserialize_from_json_str_Some in E as (v & d1 & d2 & _ & Hv & _).
  eapply deserialize_config_wf. by rewrite Hv.
Qed.

Lemma elem_of_development_tasks c t :
  t ∈ task_list c <-> exists k a, (k, a) ∈ applications c /\ t = development_task_of k a.
Proof.
  unfold task_list. induction (applications c) as [|[k a] l IH]; simpl.
  - set_solver.
  - rewrite elem_of_cons, IH. setoid_rewrite elem_of_cons. naive_solver.
Qed.

(** The iterator of [development_tasks] runs to its end and yields
    [task_list]. *)
Lemma development_tasks_yields c : yields (development_tasks c) (task_list c).
Proof. apply yields_map_slice. Qed.

Lemma application_names c : map application_name (task_list c) = map fst (applications c).
Proof. unfold task_list. induction (applications c) as [|[k a] l IH]; simpl; [done|by f_equal]. Qed.

Lemma topology_keys c : (map (fun '(k, a) => (k, view_of k a)) (applications c)).*1 = map fst (applications c).
Proof. induction (applications c) as [|[k a] l IH]; simpl; [done|by f_equal]. Qed.

Lemma topology_lookup c k a : wf c -> (k, a) ∈ applications c -> topology c !! k = Some (view_of k a).
Proof.
  intros [Hnd _] Hin. apply elem_of_list_to_map; [by rewrite topology_keys|].
  apply list_elem_of_In, in_map_iff. exists (k, a). split; [done|by apply list_elem_of_In].
Qed.

Lemma topology_lookup_inv c k v : topology c !! k = Some v ->
  exists a, (k, a) ∈ applications c /\ v = view_of k a.
Proof.
  intros Hk%elem_of_list_to_map_2. apply list_elem_of_In, in_map_iff in Hk as ([k' a] & [= <- <-] & Hin).
  exists a. split; [by apply list_elem_of_In|done].
Qed.

(** The development tasks are exactly the entries of the topology:
    each task carries the package and task its application declares. *)
Theorem development_tasks_refine c t :
  wf c ->
  t ∈ task_list c <->
    exists v, topology c !! application_name t = Some v /\
              package t = view_package v /\ task t = view_task v.
Proof.
  intros Hwf. rewrite elem_of_development_tasks. split.
  - intros (k & a & Hin & ->). exists (view_of k a). split; [by apply topology_lookup|done].
  - intros (v & (a & Hin & ->)%topology_lookup_inv & Hp & Ht).
    exists (application_name t), a. split; [done|]. destruct t; simpl in *. by subst.
Qed.

(** [port] reads the port of the topology's entry. *)
Theorem port_refine c name :
  wf c -> port c name = topology c !! name ≫= view_port.
Proof.
  intros Hwf. unfold port. destruct (assoc_get name (applications c)) as [a|] eqn:E; simpl.
  - by rewrite (topology_lookup c name a Hwf (assoc_get_Some_in _ _ _ E)).
  - apply assoc_get_None in E. unfold topology.
    rewrite (not_elem_of_list_to_map_1 _ name); [done|].
    by rewrite topology_keys.
Qed.

(** One task per application, with distinct names. *)
Theorem development_tasks_size c :
  wf c -> NoDup (map application_name (task_list c)) /\
          length (task_list c) = size (topology c).
Proof.
  intros [Hnd _]. rewrite application_names. split; [done|].
  unfold topology, task_list.
  rewrite map_size_list_to_map; [|by rewrite topology_keys].
  by rewrite !length_map.
Qed.

(** A declared port is a [u16]. *)
Theorem port_bounds c name n :
  wf c -> port c name = Some n -> (0 <= n < 65536)%Z.
Proof.
  intros [_ Hp]. unfold port. destruct (assoc_get name _) as [a|] eqn:E; [simpl|done].
  intros Hn. eapply Hp; [|exact Hn]. by apply assoc_get_Some_in.
Qed.

(** ** Reference detection *)

Lemma visit_child_unknown k ms : forall s,
  k ∈ map fst ms -> k ≠ "partOf" ->
  (visit_members visit_child s ms).1 = None \/ (visit_members visit_child s ms).2 ≠ [].
Proof.
  induction ms as [|[k' v] ms IH]; simpl; intros s Hin Hk; [set_solver|].
  destruct (visit_child s k' v) as [[s1|] d1] eqn:E; simpl; [|by left].
  destruct (visit_members visit_child s1 ms) as [r d'] eqn:E'. simpl.
  destruct (decide (k = k')) as [<-|Hne].
  - right. unfold visit_child in E. rewrite decide_False in E by done.
    injection E as <- <-. done.
  - assert (Hin' : k ∈ map fst ms) by set_solver.
    destruct (IH s1 Hin' Hk) as [Hr|Hd]; rewrite E' in *; simpl in *; [by left|].
    right. intros [_ ?]%app_eq_nil. done.
Qed.

(** The child shape is not recognised when the root object has a
    member other than [partOf]. *)
Lemma not_reference `{JsonParser} input source ms d k child errs :
  parse_json parser_options input = (Some (JObject ms), d) ->
  k ∈ map fst ms -> k ≠ "partOf" ->
  deserialize_from_json_str ChildConfig input parser_options source = (child, errs) ->
  errs = [] -> child = None.
Proof.
  intros Hp Hin Hk. unfold deserialize_from_json_str. rewrite Hp.
  unfold deserialize, Deserializable_ChildConfig, deserialize_struct.
  pose proof (visit_child_unknown k ms None Hin Hk) as Hu.
  destruct (visit_members visit_child None ms) as [[s|] d1]; simpl in *.
  - destruct Hu as [Hu|Hu]; [done|].
    destruct (finish_child s) as [r d2]. intros [= <- <-] He.
    exfalso. apply Hu. apply app_eq_nil in He as [_ He]. by apply app_eq_nil in He as [? _].
  - by intros [= <- <-].
Qed.

(** A leading ["version": "1"] member changes nothing in the full parse. *)
Lemma deserialize_config_version_1 ms name :
  deserialize ConfigV1 (JObject (("version", JString "1") :: ms)) name =
  deserialize ConfigV1 (JObject ms) name.
Proof.
  unfold deserialize, Deserializable_ConfigV1, deserialize_struct. simpl.
  by destruct (visit_members visit_config None ms) as [r d].
Qed.

Lemma from_str_add_version `{JsonParser} input input' source ms d k :
  parse_json parser_options input = (Some (JObject ms), d) ->
  parse_json parser_options input' = (Some (JObject (("version", JString "1") :: ms)), d) ->
  k ∈ map fst ms -> k ≠ "partOf" ->
  from_str input source = from_str input' source.
Proof.
  intros Hp Hp' Hin Hk. unfold from_str.
  destruct (deserialize_from_json_str ChildConfig input _ _) as [c1 e1] eqn:E1.
  destruct (deserialize_from_json_str ChildConfig input' _ _) as [c2 e2] eqn:E2.
  assert (Hc1 : (if decide (e1 = []) then c1 else None) = None).
  { case_decide; [|done]. eapply (not_reference input source ms d k); eauto. }
  assert (Hc2 : (if decide (e2 = []) then c2 else None) = None).
  { destruct (decide (e2 = [])); [|done]. eapply (not_reference input' source _ d k); eauto. set_solver. }
  rewrite Hc1, Hc2. unfold deserialize_from_json_str. by rewrite Hp, Hp', deserialize_config_version_1.
Qed.

(** ** The reference shape, exactly *)

Lemma last_part_of ms k v :
  Forall is_part_of ms -> last ms = Some (k, v) -> k = "partOf" /\ exists x, v = JString x.
Proof.
  intros Hf Hl. apply last_Some_elem_of in Hl.
  by apply (proj1 (Forall_forall _ _) Hf (k, v)).
Qed.

Lemma visit_child_clean ms : forall s,
  Forall is_part_of ms ->
  visit_members visit_child s ms =
    (Some (match last ms with Some (_, JString x) => Some x | _ => s end), []).
Proof.
  induction ms as [|[k v] ms IH]; intros s Hf; [done|].
  apply Forall_cons in Hf as [[Hk [x Hx]] Hms]. simpl in Hk, Hx. subst k v.
  simpl. rewrite (IH (Some x) Hms), last_cons. simpl.
  destruct (last ms) as [[k' v']|] eqn:El; [|done].
  by destruct (last_part_of ms k' v' Hms El) as [_ [y ->]].
Qed.

Lemma visit_child_clean_inv ms : forall s s',
  visit_members visit_child s ms = (Some s', []) -> Forall is_part_of ms.
Proof.
  induction ms as [|[k v] ms IH]; intros s s'; simpl; [constructor|].
  unfold visit_child at 1. destruct (decide (k = "partOf")) as [->|Hk].
  - destruct v; simpl; try (intros Habs; discriminate Habs).
    destruct (visit_members visit_child (Some s0) ms) as [r d'] eqn:E. simpl. intros [= -> ->].
    constructor; [split; [done|eauto]|]. by apply (IH (Some s0) s').
  - destruct (visit_members visit_child s ms) as [r d'] eqn:E. simpl. intros [=].
Qed.

Lemma configv1_from_str_err `{JsonParser} input source e :
  configv1.from_str input source = Err e -> exists d, e = JsonParse d.
Proof.
  unfold configv1.from_str.
  destruct (deserialize_from_json_str ChildConfig _ _ _) as [child errs].
  destruct (if decide (errs = []) then child else None); [done|].
  destruct (deserialize_from_json_str ConfigV1 _ _ _) as [[c|] d]; [done|]. intros [= <-]. eauto.
Qed.

(** [configv1::ConfigV1::from_str] classifies a text as a reference to
    [r] exactly when it parses without any diagnostic to an object whose
    members are all [partOf] strings, the last naming [r]. *)
Lemma from_str_reference_iff `{JsonParser} input source r :
  configv1.from_str input source = Ok (Reference r) <->
  exists ms, parse_json parser_options input = (Some (JObject ms), []) /\
             Forall is_part_of ms /\ last ms = Some ("partOf", JString r).
Proof.
  split.
  - unfold configv1.from_str.
    destruct (deserialize_from_json_str ChildConfig input parser_options source) as [child errs] eqn:E.
    destruct (decide (errs = [])) as [->|]; [destruct child as [c|]|];
      try (destruct (deserialize_from_json_str ConfigV1 _ _ _) as [[?|] ?]; intros Habs; discriminate Habs).
    intros [= <-]. apply deserialize_from_json_str_Some in E as (v & d1 & d2 & Hp & Hv & Hd).
    symmetry in Hd. apply app_eq_nil in Hd as [-> ->].
    unfold deserialize, Deserializable_ChildConfig, deserialize_struct in Hv.
    destruct v as [| | | | |ms]; try discriminate Hv.
    destruct (visit_members visit_child None ms) as [[s|] dd] eqn:Ev; [|discriminate Hv].
    destruct s as [p|]; simpl in Hv; [|discriminate Hv].
    injection Hv as <- Hdd. apply app_nil in Hdd as [-> _].
    pose proof (visit_child_clean_inv ms None (Some p) Ev) as Hf.
    rewrite (visit_child_clean ms None Hf) in Ev. injection Ev as Ev.
    exists ms. split_and!; [done|done|].
    destruct (last ms) as [[k [| | | x | |]]|] eqn:El; try discriminate Ev.
    injection Ev as ->. by destruct (last_part_of ms k (JString p) Hf El) as [-> _].
  - intros (ms & Hp & Hf & Hl). unfold configv1.from_str, deserialize_from_json_str. rewrite Hp.
    unfold deserialize, Deserializable_ChildConfig, deserialize_struct.
    rewrite (visit_child_clean ms None Hf), Hl. reflexivity.
Qed.

(** The source label only names the input in diagnostics: the parse
    result does not depend on it. *)
Lemma configv1_from_str_source `{JsonParser} input s1 s2 r :
  configv1.from_str input s1 = Ok r <-> configv1.from_str input s2 = Ok r.
Proof.
  unfold configv1.from_str, deserialize_from_json_str.
  destruct (parse_json parser_options input) as [[v|] d]; [|done].
  destruct v; try (simpl; repeat case_decide; split; discriminate).
  unfold deserialize, Deserializable_ChildConfig, Deserializable_ConfigV1, deserialize_struct. reflexivity.
Qed.

(** ** Unknown members and mistyped versions *)

Lemma deserialize_config_unknown ms name k v :
  k ≠ "version" -> k ≠ "applications" ->
  deserialize ConfigV1 (JObject ((k, v) :: ms)) name =
    let '(r, d) := deserialize ConfigV1 (JObject ms) name in (r, DUnknownKey k :: d).
Proof.
  intros H1 H2. unfold deserialize, Deserializable_ConfigV1, deserialize_struct. simpl.
  unfold visit_config at 1. rewrite decide_False, decide_False by done. simpl.
  destruct (visit_members visit_config None ms) as [[s|] d]; simpl; [by destruct (finish_config s)|done].
Qed.

(** An unknown member is a diagnostic only: it changes neither whether
    nor what the version-1 parser returns. *)
Lemma configv1_from_str_unknown `{JsonParser} input input' source ms d d' k v r :
  parse_json parser_options input = (Some (JObject ms), d) ->
  parse_json parser_options input' = (Some (JObject ((k, v) :: ms)), d') ->
  k ≠ "version" -> k ≠ "applications" -> "applications" ∈ map fst ms ->
  configv1.from_str input' source = Ok r <-> configv1.from_str input source = Ok r.
Proof.
  intros Hp Hp' H1 H2 Ha. unfold configv1.from_str.
  destruct (deserialize_from_json_str ChildConfig input _ _) as [c1 e1] eqn:E1.
  destruct (deserialize_from_json_str ChildConfig input' _ _) as [c2 e2] eqn:E2.
  assert (Hc1 : (if decide (e1 = []) then c1 else None) = None).
  { case_decide; [|done]. eapply (not_reference input source ms d "applications"); eauto. }
  assert (Hc2 : (if decide (e2 = []) then c2 else None) = None).
  { destruct (decide (e2 = [])); [|done]. eapply (not_reference input' source _ d' "applications"); eauto. set_solver. }
  rewrite Hc1, Hc2. unfold deserialize_from_json_str. rewrite Hp, Hp', deserialize_config_unknown by done.
  by destruct (deserialize ConfigV1 (JObject ms) source) as [[c|] e].
Qed.

(** A [version] member that is not a string fails the version-1 parse. *)
Lemma deserialize_config_bad_version ms name v :
  ("version", v) ∈ ms -> (forall s, v ≠ JString s) -> (deserialize ConfigV1 (JObject ms) name).1 = None.
Proof.
  intros Hin Hv. unfold deserialize, Deserializable_ConfigV1, deserialize_struct.
  rewrite (surjective_pairing (visit_members _ _ _)).
  rewrite (visit_members_None visit_config ms "version" v Hin); [done|].
  intros s. unfold visit_config. rewrite decide_True by done.
  destruct v; simpl; try done. by destruct (Hv s0).
Qed.
