(* ===== verification/Config.v ===== *)
(** * The version dispatcher: [Config] of lib.rs

    [Config] holds the version-tagged model [ConfigInner], the file name
    and the optional anchored path.  [from_str] is the two-pass parse of
    lib.rs: the sniffer deserializes [VersionOnly] (its diagnostics are
    dropped; a missing, mistyped or unparsable version counts as "1"),
    the version selects the parser, a [Reference] becomes the error
    [ChildConfig], and the result carries [source] as file name and no
    path.  The query surface ([development_tasks], a boxed iterator, and
    [port]) and the accessors ([Accessors.filename], [Accessors.path],
    [config_version]) dispatch on the variant.  [config_inv] is the
    invariant every [Config] of the life cycle keeps (see [Loader]).  The theorems are stated for any
    [JsonParser]; their witnesses run the JSONC instance. *)

From S2P Require Import Prelude Paths Iter Json JsoncParser ConfigV1 Crate.

(** [#[derive(Deserializable, Default)] struct VersionOnly]: a
    [version] member that is a string is kept (the last one wins); one
    of another type is a diagnostic and leaves the field as it was. *)
Record VersionOnly := { version : option string }.

Definition visit_version_only (s : VersionOnly) (k : string) (v : json)
  : option VersionOnly * list Diagnostic :=
  if decide (k = "version") then
    match deserialize string v k with
    | (Some x, d) => (Some {| version := Some x |}, d)
    | (None, d) => (Some s, d)
    end
  else (Some s, [DUnknownKey k]).

#[export] Instance Deserializable_VersionOnly : Deserializable VersionOnly :=
  deserialize_struct {| version := None |} visit_version_only (fun s => (Some s, [])).

Inductive ConfigInner :=
| V1 (config : ConfigV1).

Record Config := {
  inner : ConfigInner;
  filename : string;
  path : option AnchoredSystemPath
}.

(** The [match version_only] of [from_str]: the declared version, or
    "1" by default. *)
Definition version_or_default (version_only : option VersionOnly) : string :=
  match version_only with
  | Some {| version := Some v |} => v
  | Some {| version := None |} | None => "1"
  end.

Section FromStr.
Context `{JsonParser}.

(** The version the first pass reads from the text. *)
Definition sniff_version (input source : string) : string :=
  let '(version_only, _errs) :=
    deserialize_from_json_str VersionOnly input parser_options source in
  version_or_default version_only.

(** [Config::from_str] *)
Definition from_str (input source : string) : result Config Error :=
  let version := sniff_version input source in
  (inner <- (if decide (version = "1") then
              and_then (configv1.from_str input source)
                (fun r => match r with
                          | Actual config_v1 => Ok (V1 config_v1)
                          | Reference default_app => Err (ChildConfig default_app)
                          end)
            else Err (UnsupportedVersion version)) ;;
   Ok {| inner := inner; filename := source; path := None |})%rust.
End FromStr.

(** [Config::development_tasks]: the version's iterator, boxed. *)
Definition development_tasks (c : Config) : Iter DevelopmentTask :=
  match inner c with
  | V1 config_v1 => configv1.development_tasks config_v1
  end.

(** What the iterator of [development_tasks] yields. *)
Definition config_task_list (c : Config) : list DevelopmentTask :=
  match inner c with
  | V1 config_v1 => configv1.task_list config_v1
  end.

(** [Config::port] *)
Definition port (c : Config) (name : string) : option Z :=
  match inner c with
  | V1 config_v1 => configv1.port config_v1 name
  end.

(** [Config::version] *)
Definition config_version (c : Config) : string :=
  match inner c with
  | V1 _ => "1"
  end.

(** [Config::set_path]: the package directory joined with the file name. *)
Definition set_path (c : Config) (dir : AnchoredSystemPath) : Config :=
  {| inner := inner c; filename := filename c;
     path := Some (anchored_join_component dir (filename c)) |}.

(** The accessors of [impl Config]. *)
Module Accessors.

(** [Config::filename] *)
Definition filename (self : Config) : string := self.(filename).

(** [Config::path]: [self.path.as_deref()?], then [Some]. *)
Definition path (self : Config) : option AnchoredSystemPath :=
  path ← self.(path); Some path.

End Accessors.

(** The version the first pass would find in a root object: the last
    [version] member whose value is a string. *)
Fixpoint declared_version (ms : list (string * json)) : option string :=
  match ms with
  | [] => None
  | (k, v) :: ms' =>
      match declared_version ms' with
      | Some x => Some x
      | None => if decide (k = "version") then
                  match v with JString s => Some s | _ => None end
                else None
      end
  end.

(** The abstract view of a [Config]: application name to package, task
    and port. *)
Definition config_topology (c : Config) : gmap string AppView :=
  match inner c with
  | V1 config_v1 => topology config_v1
  end.

(** A configuration with one application, "web" on port 3000: the
    input of the concrete runs below. *)
Definition sample_config : Config :=
  {| inner := V1 {| applications :=
       [("web", {| package_name := Some "site"; development := None; app_port := Some 3000%Z |})] |};
     filename := "microfrontends.json"; path := None |}.

(** The invariant of a [Config]: its model satisfies the version's
    invariant. *)
Definition config_wf (c : Config) : Prop :=
  match inner c with
  | V1 config_v1 => ConfigV1.wf config_v1
  end.

(** The invariant of every [Config] a caller holds: its model is well
    formed, and a path, once attached, ends with the file name. *)
Definition config_inv (c : Config) : Prop :=
  config_wf c /\
  forall p, Accessors.path c = Some p -> anchored_file_name p = Some (Accessors.filename c).

(** ** The version sniffer *)

Lemma visit_version_only_members ms : forall s,
  (visit_members visit_version_only s ms).1 =
    Some {| version := match declared_version ms with Some x => Some x | None => version s end |}.
Proof.
  induction ms as [|[k v] ms IH]; intros s; simpl; [by destruct s|].
  destruct (visit_version_only s k v) as [[s1|] d1] eqn:E.
  - destruct (visit_members visit_version_only s1 ms) as [r d'] eqn:E'. simpl.
    specialize (IH s1). rewrite E' in IH. simpl in IH. rewrite IH.
    destruct (declared_version ms); [done|]. unfold visit_version_only in E.
    case_decide; [subst k|by injection E as <- _].
    destruct v; simpl in E; injection E as <- _; done.
  - exfalso. unfold visit_version_only in E. case_decide; [destruct v|]; simpl in E; discriminate.
Qed.

Lemma declared_version_None ms : "version" ∉ map fst ms -> declared_version ms = None.
Proof.
  induction ms as [|[k v] ms IH]; simpl; [done|]. intros Hn.
  rewrite IH by set_solver. case_decide; [set_solver|done].
Qed.

Lemma declared_version_cons_other k v ms :
  k ≠ "version" -> declared_version ((k, v) :: ms) = declared_version ms.
Proof. intros Hk. simpl. destruct (declared_version ms); [done|]. by rewrite decide_False. Qed.

Lemma sniff_version_object `{JsonParser} input source ms d :
  parse_json parser_options input = (Some (JObject ms), d) ->
  sniff_version input source = default "1" (declared_version ms).
Proof.
  intros Hp. unfold sniff_version, deserialize_from_json_str. rewrite Hp.
  unfold deserialize, Deserializable_VersionOnly, deserialize_struct.
  pose proof (visit_version_only_members ms {| version := None |}) as Hm.
  destruct (visit_members visit_version_only _ ms) as [[s|] d']; simpl in *; [|done].
  injection Hm as ->. simpl. by destruct (declared_version ms).
Qed.

Lemma sniff_version_no_object `{JsonParser} input source :
  (forall ms, (parse_json parser_options input).1 ≠ Some (JObject ms)) ->
  sniff_version input source = "1".
Proof.
  unfold sniff_version, deserialize_from_json_str. intros Hn.
  destruct (parse_json parser_options input) as [[v|] d]; simpl in *; [|done].
  destruct v; simpl; try done. by destruct (Hn members).
Qed.

(** C10: the first pass of [from_str] reads the last string-valued
    [version] member of the root object, and "1" when there is none,
    when the root is not an object, or when the text does not parse. *)
Theorem sniff_version_spec `{JsonParser} input source :
  sniff_version input source =
    match (parse_json parser_options input).1 with
    | Some (JObject ms) => default "1" (declared_version ms)
    | _ => "1"
    end.
Proof.
  destruct (parse_json parser_options input) as [r d] eqn:Hp.
  destruct r as [[]|]; simpl;
    first [by apply (sniff_version_object input source _ d)
          |apply sniff_version_no_object; rewrite Hp; by intros ms].
Qed.

Lemma sniff_version_source `{JsonParser} input s1 s2 :
  sniff_version input s1 = sniff_version input s2.
Proof.
  destruct (parse_json parser_options input) as [[[]|] d] eqn:Hp;
    try (rewrite !sniff_version_no_object; [done| intros ms; by rewrite Hp..]).
  by rewrite !(sniff_version_object input _ members d Hp).
Qed.

(** ** [from_str] *)

(** C1: a declared version other than "1" is rejected with
    [UnsupportedVersion] carrying the declared string. *)
Theorem from_str_unsupported_version `{JsonParser} input source ms d v :
  parse_json parser_options input = (Some (JObject ms), d) ->
  declared_version ms = Some v -> v ≠ "1" ->
  from_str input source = Err (UnsupportedVersion v).
Proof.
  intros Hp Hv Hne. unfold from_str. rewrite (sniff_version_object input source ms d Hp), Hv.
  simpl. by destruct (decide (v = "1")).
Qed.

(** C3: a reference-shaped file is rejected with [ChildConfig] naming
    the owning application; no [Config] is returned. *)
Theorem from_str_child_config `{JsonParser} input source r :
  parse_json parser_options input = (Some (JObject [("partOf", JString r)]), []) ->
  from_str input source = Err (ChildConfig r).
Proof.
  intros Hp. unfold from_str. rewrite (sniff_version_object input source _ [] Hp). simpl.
  unfold configv1.from_str, deserialize_from_json_str. rewrite Hp. reflexivity.
Qed.

(** C22: [from_str] fails with [ChildConfig r] exactly on the
    reference shape: a text that parses without any diagnostic to an
    object whose members are all [partOf] strings, the last naming [r].
    Any other member, a version included, makes the file an ordinary
    (and then invalid) configuration instead. *)
Theorem from_str_child_config_iff `{JsonParser} input source r :
  from_str input source = Err (ChildConfig r) <->
  exists ms, parse_json parser_options input = (Some (JObject ms), []) /\
             Forall is_part_of ms /\ last ms = Some ("partOf", JString r).
Proof.
  split.
  - unfold from_str. destruct (decide (sniff_version input source = "1")); [|done]. simpl.
    destruct (configv1.from_str input source) as [[c1|r']|err] eqn:E; simpl; try done.
    + intros [= ->]. by apply from_str_reference_iff in E.
    + intros [= ->]. by destruct (configv1_from_str_err input source _ E).
  - intros Hms. pose proof Hms as (ms & Hp & Hf & _).
    apply from_str_reference_iff with (source := source) in Hms.
    unfold from_str. rewrite (sniff_version_object input source ms [] Hp).
    rewrite declared_version_None; [by rewrite Hms|].
    intros Hin. apply list_elem_of_fmap in Hin as ([k v] & Hk & Hin). simpl in Hk. subst k.
    by destruct (proj1 (Forall_forall _ _) Hf _ Hin) as [Hk _].
Qed.

(** C29: the errors of [from_str]: [UnsupportedVersion v] exactly when
    the sniffed version [v] is not "1"; on version "1" only [ChildConfig]
    or [JsonParse]; and never an I/O error. *)
Theorem from_str_errors `{JsonParser} input source :
  (forall v, from_str input source = Err (UnsupportedVersion v) <->
             sniff_version input source = v /\ v ≠ "1") /\
  (forall e, from_str input source = Err e -> sniff_version input source = "1" ->
             (exists r, e = ChildConfig r) \/ (exists errs, e = JsonParse errs)) /\
  (forall err, from_str input source ≠ Err (Io err)).
Proof.
  unfold from_str. destruct (decide (sniff_version input source = "1")) as [E|E]; simpl.
  - rewrite E. destruct (configv1.from_str input source) as [[c1|r]|err] eqn:F; simpl.
    + split_and!; [|done|done]. split; [done|by intros [<- ?]].
    + split_and!; [|intros e [= <-] _; eauto|done]. split; [done|by intros [<- ?]].
    + destruct (configv1_from_str_err _ _ _ F) as [ds ->].
      split_and!; [|intros e [= <-] _; eauto|done]. split; [done|by intros [<- ?]].
  - split_and!; [|done|done]. intros v. split; [by intros [= <-]|by intros [<- _]].
Qed.

(** C31: the source label only names the input: parsing the same text
    under two labels succeeds for both or for neither, with the same
    model and the label as file name, and fails with the same error
    unless both are parse errors (whose diagnostics may cite the
    label). *)
Theorem from_str_source_label `{JsonParser} input s1 s2 :
  match from_str input s1, from_str input s2 with
  | Ok c1, Ok c2 => inner c1 = inner c2 /\ filename c1 = s1 /\ filename c2 = s2
  | Err (JsonParse _), Err (JsonParse _) => True
  | Err e1, Err e2 => e1 = e2
  | _, _ => False
  end.
Proof.
  unfold from_str. rewrite (sniff_version_source input s1 s2).
  destruct (decide (sniff_version input s2 = "1")); simpl; [|done].
  destruct (configv1.from_str input s1) as [r1|e1] eqn:E1;
    [apply (configv1_from_str_source _ _ s2) in E1; rewrite E1; by destruct r1|].
  destruct (configv1.from_str input s2) as [r2|e2] eqn:E2.
  - apply (configv1_from_str_source _ _ s1) in E2. congruence.
  - destruct (configv1_from_str_err _ _ _ E1) as [? ->], (configv1_from_str_err _ _ _ E2) as [? ->]. done.
Qed.

(** C33: members the schema does not know are diagnostics only: adding
    one to a configuration that declares [applications] changes neither
    whether [from_str] succeeds nor the configuration it returns. *)
Theorem from_str_unknown_member `{JsonParser} input input' source ms d d' k v c :
  parse_json parser_options input = (Some (JObject ms), d) ->
  parse_json parser_options input' = (Some (JObject ((k, v) :: ms)), d') ->
  k ≠ "version" -> k ≠ "applications" -> "applications" ∈ map fst ms ->
  from_str input' source = Ok c <-> from_str input source = Ok c.
Proof.
  intros Hp Hp' H1 H2 Ha. unfold from_str.
  rewrite (sniff_version_object input' source _ d' Hp'), (sniff_version_object input source _ d Hp),
    declared_version_cons_other by done.
  destruct (decide (default "1" (declared_version ms) = "1")); simpl; [|done].
  pose proof (fun r => configv1_from_str_unknown input input' source ms d d' k v r Hp Hp' H1 H2 Ha) as Hiff.
  destruct (configv1.from_str input' source) as [r'|err'] eqn:E', (configv1.from_str input source) as [r|err] eqn:E.
  - destruct (proj1 (Hiff r') eq_refl). done.
  - by destruct (proj1 (Hiff r') eq_refl).
  - by destruct (proj2 (Hiff r) eq_refl).
  - done.
Qed.

(** C34: a [version] member that is not a string (the number 2, say)
    is not an unsupported version: the sniff defaults to "1" and the
    strict version-1 parse fails with [JsonParse]. *)
Theorem from_str_non_string_version `{JsonParser} input source ms d v :
  parse_json parser_options input = (Some (JObject ms), d) ->
  ("version", v) ∈ ms -> (forall s, v ≠ JString s) -> declared_version ms = None ->
  exists errs, from_str input source = Err (JsonParse errs).
Proof.
  intros Hp Hin Hv Hd. unfold from_str. rewrite (sniff_version_object input source _ d Hp), Hd. simpl.
  unfold configv1.from_str.
  destruct (deserialize_from_json_str ConfigV1.ChildConfig input _ _) as [c1 e1] eqn:E1.
  assert (Hc : (if decide (e1 = []) then c1 else None) = None).
  { destruct (decide (e1 = [])); [|done].
    eapply (not_reference input source ms d "version"); eauto. by apply (list_elem_of_fmap_2 fst) in Hin. }
  rewrite Hc. unfold deserialize_from_json_str. rewrite Hp.
  pose proof (deserialize_config_bad_version ms source v Hin Hv) as Hn.
  destruct (deserialize ConfigV1 (JObject ms) source) as [r ds]. simpl in Hn. subst r. simpl. eauto.
Qed.

(** C12: text that does not parse fails with the parser's diagnostics,
    never with [UnsupportedVersion]. *)
Theorem from_str_malformed `{JsonParser} input source d :
  parse_json parser_options input = (None, d) ->
  from_str input source = Err (JsonParse d).
Proof.
  intros Hp. unfold from_str. rewrite sniff_version_no_object by (rewrite Hp; by intros ms). simpl.
  unfold configv1.from_str, deserialize_from_json_str. rewrite Hp. by case_decide.
Qed.

(** C2: a configuration without [version] is parsed exactly as the same
    configuration with ["version": "1"] added. *)
Theorem from_str_versionless `{JsonParser} input input' source ms d :
  parse_json parser_options input = (Some (JObject ms), d) ->
  parse_json parser_options input' = (Some (JObject (("version", JString "1") :: ms)), d) ->
  "version" ∉ map fst ms -> "applications" ∈ map fst ms ->
  from_str input source = from_str input' source.
Proof.
  intros Hp Hp' Hn Ha. unfold from_str.
  rewrite (sniff_version_object input source ms d Hp), (sniff_version_object input' source _ d Hp').
  simpl. rewrite declared_version_None by done. simpl.
  by rewrite (ConfigV1.from_str_add_version input input' source ms d "applications").
Qed.

Lemma from_str_Ok_inv `{JsonParser} input source c :
  from_str input source = Ok c ->
  filename c = source /\ path c = None /\ config_version c = "1" /\ config_wf c.
Proof.
  unfold from_str. destruct (decide (sniff_version input source = "1")); [|done]. simpl.
  destruct (configv1.from_str input source) as [[c1|r]|err] eqn:E; simpl; try done.
  intros [= <-]. split_and!; try done. by apply (ConfigV1.from_str_wf input source).
Qed.

(** [set_path] establishes the path half of the invariant, whatever
    path the configuration had. *)
Lemma set_path_inv c dir : config_wf c -> config_inv (set_path c dir).
Proof.
  intros Hwf. split; [done|]. intros p [= <-]. apply anchored_file_name_join_component.
Qed.

Lemma config_inv_no_path c : config_wf c -> path c = None -> config_inv c.
Proof. intros Hwf Hp. split; [done|]. unfold Accessors.path. by rewrite Hp. Qed.

(** C11: a [Config] returned by [from_str] is version 1, carries the
    source as its file name, has no path yet, and its model satisfies
    the invariant. *)
Theorem from_str_ok `{JsonParser} input source c :
  from_str input source = Ok c ->
  filename c = source /\ path c = None /\ config_version c = "1" /\ config_wf c.
Proof. apply from_str_Ok_inv. Qed.

(** C13: the spec's example: a version-1 text with "web" (task "serve")
    and "docs" (no development block) yields exactly the two tasks, in
    the order of the file, and no port for "web". *)
Theorem from_str_spec_example `{JsonParser} input source d :
  parse_json parser_options input =
    (Some (JObject [("version", JString "1");
                    ("applications", JObject [("web", JObject [("development", JObject [("task", JString "serve")])]);
                                              ("docs", JObject [])])]), d) ->
  exists c, from_str input source = Ok c /\
    yields (development_tasks c)
      [{| application_name := "web"; package := "web"; task := Some "serve" |};
       {| application_name := "docs"; package := "docs"; task := None |}] /\
    port c "web" = None.
Proof.
  intros Hp. unfold from_str. rewrite (sniff_version_object input source _ d Hp). simpl.
  unfold configv1.from_str, deserialize_from_json_str. rewrite Hp. simpl.
  destruct (decide (d ++ _ = [])); simpl; eexists; split_and!; try reflexivity;
    apply development_tasks_yields.
Qed.

(** ** The query surface refines the abstract topology *)

Lemma config_development_tasks_yields c : yields (development_tasks c) (config_task_list c).
Proof. destruct c as [[c1] f p]. apply development_tasks_yields. Qed.

Lemma config_yields_iff c ts : yields (development_tasks c) ts <-> ts = config_task_list c.
Proof.
  split; [|intros ->; apply config_development_tasks_yields].
  intros Hy. exact (yields_functional _ _ _ Hy (config_development_tasks_yields c)).
Qed.


(** C14: on a well-formed [Config], [development_tasks] lists exactly the
    entries of the topology: one task per application, carrying the
    package (the key unless overridden) and the declared task. *)
Theorem config_development_tasks_refine c ts t :
  config_wf c -> yields (development_tasks c) ts ->
  t ∈ ts <->
    exists v, config_topology c !! application_name t = Some v /\
              package t = view_package v /\ task t = view_task v.
Proof. intros Hwf ->%config_yields_iff. destruct c as [[c1] f p]. by apply development_tasks_refine. Qed.

(** C15: on a well-formed [Config], [port] is the port the topology
    declares for the name, and absent for unknown names. *)
Theorem config_port_refine c name :
  config_wf c -> port c name = config_topology c !! name ≫= view_port.
Proof. destruct c as [[c1] f p]. apply port_refine. Qed.

(** C16: the development tasks of a well-formed [Config] have distinct
    application names, one per entry of the topology. *)
Theorem config_development_tasks_distinct c ts :
  config_wf c -> yields (development_tasks c) ts ->
  NoDup (map application_name ts) /\ length ts = size (config_topology c).
Proof. intros Hwf ->%config_yields_iff. destruct c as [[c1] f p]. by apply development_tasks_size. Qed.


(** C30: the boundary of an empty [applications] object: the file is a
    valid configuration, its task iterator ends at the first call, and
    no application has a port. *)
Theorem from_str_empty_applications `{JsonParser} input source d :
  parse_json parser_options input = (Some (JObject [("applications", JObject [])]), d) ->
  exists c, from_str input source = Ok c /\ next (development_tasks c) = None /\
            forall name, port c name = None.
Proof.
  intros Hp. unfold from_str. rewrite (sniff_version_object input source _ d Hp). simpl.
  unfold configv1.from_str, deserialize_from_json_str. rewrite Hp. simpl.
  case_decide as Hd; [by apply app_eq_nil in Hd as [_ ?]|]. simpl.
  eexists; split_and!; [reflexivity|reflexivity|done].
Qed.

(** C28: a port is read as a [u16]: when the text of the number is a
    [u16], the configuration loads with that port; when it is not (for
    example 65536), the whole parse fails with [JsonParse] rather than
    wrapping the value or dropping the port. *)
Theorem from_str_port_u16 `{JsonParser} input source k raw d :
  parse_json parser_options input =
    (Some (JObject [("applications", JObject [(k, JObject [("port", JNumber raw)])])]), d) ->
  match parse_u16 raw with
  | Some n => exists c, from_str input source = Ok c /\ port c k = Some n
  | None => exists errs, from_str input source = Err (JsonParse errs)
  end.
Proof.
  intros Hp. unfold from_str. rewrite (sniff_version_object input source _ d Hp). simpl.
  unfold configv1.from_str, deserialize_from_json_str. rewrite Hp, deserialize_config_port_only.
  unfold deserialize_u16. destruct (parse_u16 raw) as [n|]; simpl;
    (case_decide as Hd; [by apply app_eq_nil in Hd as [_ ?]|]); simpl; eauto.
  eexists; split; [reflexivity|]. unfold port, configv1.port. simpl. by case_decide.
Qed.

(** ** Concrete runs *)

Lemma sample_config_wf : config_wf sample_config.
Proof.
  split; [repeat constructor; set_solver|].
  intros k a n Hin Hn. apply list_elem_of_singleton in Hin. injection Hin as -> ->.
  injection Hn as <-. lia.
Qed.

Lemma from_str_unsupported_version_witness :
  @from_str jsonc_parser (dq "{'version': 'yolo'}") "something.json" = Err (UnsupportedVersion "yolo").
Proof.
  apply (@from_str_unsupported_version jsonc_parser _ _ [("version", JString "yolo")] [] "yolo");
    [vm_compute; reflexivity|reflexivity|discriminate].
Defined.

Lemma from_str_child_config_witness :
  @from_str jsonc_parser (dq "{'partOf': 'web'}") "microfrontends.json" = Err (ChildConfig "web").
Proof. apply (@from_str_child_config jsonc_parser). vm_compute. reflexivity. Defined.

Lemma from_str_malformed_witness :
  @from_str jsonc_parser (dq "{'version': ") "microfrontends.json" =
    Err (JsonParse [DSyntax "unexpected token"]).
Proof. apply (@from_str_malformed jsonc_parser). vm_compute. reflexivity. Defined.

Lemma from_str_versionless_witness :
  @from_str jsonc_parser (dq "{'applications': {'web': {}}}") "microfrontends.json" =
  @from_str jsonc_parser (dq "{'version': '1', 'applications': {'web': {}}}") "microfrontends.json".
Proof.
  apply (@from_str_versionless jsonc_parser _ _ _ [("applications", JObject [("web", JObject [])])] []);
    [vm_compute; reflexivity|vm_compute; reflexivity|set_solver|set_solver].
Defined.

Lemma from_str_ok_witness :
  filename sample_config = "microfrontends.json" /\ path sample_config = None /\
  config_version sample_config = "1" /\ config_wf sample_config.
Proof.
  apply (@from_str_ok jsonc_parser
    (dq "{'applications': {'web': {'packageName': 'site', 'port': 3000}}}") "microfrontends.json").
  vm_compute. reflexivity.
Defined.

Lemma from_str_spec_example_witness :
  exists c, @from_str jsonc_parser
    (dq "{'version':'1','applications':{'web':{'development':{'task':'serve'}},'docs':{}}}") "m.json" = Ok c /\
    yields (development_tasks c)
      [{| application_name := "web"; package := "web"; task := Some "serve" |};
       {| application_name := "docs"; package := "docs"; task := None |}] /\
    port c "web" = None.
Proof. apply (@from_str_spec_example jsonc_parser _ _ []). vm_compute. reflexivity. Defined.

Lemma config_development_tasks_refine_witness :
  yields (development_tasks sample_config) [{| application_name := "web"; package := "site"; task := None |}] /\
  ({| application_name := "web"; package := "site"; task := None |}
     ∈ [{| application_name := "web"; package := "site"; task := None |}] <->
    exists v, config_topology sample_config !! "web" = Some v /\
              "site" = view_package v /\ None = view_task v).
Proof.
  split; [apply config_development_tasks_yields|].
  apply config_development_tasks_refine; [apply sample_config_wf|apply config_development_tasks_yields].
Defined.

Lemma config_port_refine_witness :
  port sample_config "web" = config_topology sample_config !! "web" ≫= view_port.
Proof. apply config_port_refine, sample_config_wf. Defined.

Lemma config_development_tasks_distinct_witness :
  NoDup (map application_name [{| application_name := "web"; package := "site"; task := None |}]) /\
  length [{| application_name := "web"; package := "site"; task := None |}] = size (config_topology sample_config).
Proof.
  apply config_development_tasks_distinct; [apply sample_config_wf|apply config_development_tasks_yields].
Defined.


Lemma from_str_port_u16_witness :
  (exists c, @from_str jsonc_parser (dq "{'applications': {'web': {'port': 65535}}}") "m.json" = Ok c /\
             port c "web" = Some 65535%Z) /\
  (exists errs, @from_str jsonc_parser (dq "{'applications': {'web': {'port': 65536}}}") "m.json" =
                Err (JsonParse errs)).
Proof.
  split.
  - apply (@from_str_port_u16 jsonc_parser _ "m.json" "web" "65535" []). vm_compute. reflexivity.
  - apply (@from_str_port_u16 jsonc_parser _ "m.json" "web" "65536" []). vm_compute. reflexivity.
Defined.

Lemma from_str_empty_applications_witness :
  exists c, @from_str jsonc_parser (dq "{'applications': {}} // none yet") "m.json" = Ok c /\
    next (development_tasks c) = None /\ forall name, port c name = None.
Proof. apply (@from_str_empty_applications jsonc_parser _ _ []). vm_compute. reflexivity. Defined.

Lemma from_str_unknown_member_witness :
  @from_str jsonc_parser (dq "{'$schema': 'x.json', 'applications': {'web': {}}}") "m.json" =
    Ok {| inner := V1 {| applications := [("web", empty_application)] |}; filename := "m.json"; path := None |} <->
  @from_str jsonc_parser (dq "{'applications': {'web': {}}}") "m.json" =
    Ok {| inner := V1 {| applications := [("web", empty_application)] |}; filename := "m.json"; path := None |}.
Proof.
  apply (@from_str_unknown_member jsonc_parser _ _ _ [("applications", JObject [("web", JObject [])])] [] []
           "$schema" (JString "x.json")); try (vm_compute; reflexivity); try done. set_solver.
Defined.

Lemma from_str_non_string_version_witness :
  exists errs, @from_str jsonc_parser (dq "{'version': 2, 'applications': {}}") "m.json" = Err (JsonParse errs).
Proof.
  apply (@from_str_non_string_version jsonc_parser _ _ [("version", JNumber "2"); ("applications", JObject [])] []
           (JNumber "2")); [vm_compute; reflexivity|set_solver|done|reflexivity].
Defined.
