(* ===== verification/Loader.v ===== *)
(** * Loading a configuration from the file system

    [Config::load] reads a file at an exact path and parses it with the
    path as source label.  [Config::load_from_dir] resolves the package
    directory against the repository root, asks [load_v1_dir] for the
    first existing candidate ([microfrontends.json], then
    [microfrontends.jsonc]; an I/O error on a candidate counts as
    "existing", so it is reported rather than skipped), parses it, then
    replaces the file name by the candidate's base name (an [expect]
    that would panic on the root path) and attaches the path.

    [LoadedFromDir] is the specification of directory loading: the
    first present candidate decides the outcome.  [load_from_dir_refine]
    shows the code returns what the specification allows, and
    [load_from_dir_no_panic] that the [expect] never fires.
    [reachable] is the life cycle of a [Config]: created by [from_str],
    [load] or [load_from_dir], then changed only by [set_path]; every
    reachable [Config] keeps [config_inv]. *)

From S2P Require Import Prelude Paths Iter Json JsoncParser ConfigV1 Crate Config.

Section Load.
Context `{JsonParser}.

(** [Config::load] *)
Definition load (fs : FileSystem) (config_path : AbsoluteSystemPath)
  : result (option Config) Error :=
  (contents <- map_err error_of_io (read_existing_to_string fs config_path) ;;
   match contents with
   | None => Ok None
   | Some contents =>
       config <- from_str contents (as_str config_path) ;;
       Ok (Some config)
   end)%rust.

(** The closure [load_config] of [load_v1_dir]. *)
Definition load_config (fs : FileSystem) (dir : AbsoluteSystemPath) (filename : string)
  : option (result string IoError * AbsoluteSystemPath) :=
  let path := join_component dir filename in
  contents ← transpose_result (read_existing_to_string fs path);
  Some (contents, path).

(** [Config::load_v1_dir] *)
Definition load_v1_dir (fs : FileSystem) (dir : AbsoluteSystemPath)
  : option (result string IoError * AbsoluteSystemPath) :=
  or_else (load_config fs dir DEFAULT_MICROFRONTENDS_CONFIG_V1)
    (fun _ => load_config fs dir DEFAULT_MICROFRONTENDS_CONFIG_V1_ALT).

(** [Config::load_from_dir] *)
Definition load_from_dir (fs : FileSystem) (repo_root : AbsoluteSystemPath)
    (package_dir : AnchoredSystemPath) : exec (result (option Config) Error) :=
  let absolute_dir := resolve repo_root package_dir in
  match load_v1_dir fs absolute_dir with
  | None => Done (Ok None)
  | Some (contents, path) =>
      match map_err error_of_io contents with
      | Err e => Done (Err e)
      | Ok contents =>
          match from_str contents (as_str path) with
          | Err e => Done (Err e)
          | Ok config =>
              (name <-! expect (file_name path) "microfrontends config should not be root" ;;
               let config := {| inner := inner config; filename := name; Config.path := Config.path config |} in
               Done (Ok (Some (set_path config package_dir))))%rust
          end
      end
  end.

(** ** Specification *)

Definition candidates : list string :=
  [DEFAULT_MICROFRONTENDS_CONFIG_V1; DEFAULT_MICROFRONTENDS_CONFIG_V1_ALT].

(** The first candidate present in [dir], with its entry. *)
Fixpoint first_present (fs : FileSystem) (dir : AbsoluteSystemPath) (names : list string)
  : option (string * FsEntry) :=
  match names with
  | [] => None
  | n :: names' =>
      match fs !! abs_components (join_component dir n) with
      | Some e => Some (n, e)
      | None => first_present fs dir names'
      end
  end.

Inductive LoadedFromDir (fs : FileSystem) (root : AbsoluteSystemPath) (pkg : AnchoredSystemPath)
  : result (option Config) Error -> Prop :=
| ld_absent :
    first_present fs (resolve root pkg) candidates = None ->
    LoadedFromDir fs root pkg (Ok None)
| ld_unreadable n e :
    first_present fs (resolve root pkg) candidates = Some (n, Unreadable e) ->
    LoadedFromDir fs root pkg (Err (Io e))
| ld_invalid n text err :
    first_present fs (resolve root pkg) candidates = Some (n, File text) ->
    from_str text (as_str (join_component (resolve root pkg) n)) = Err err ->
    LoadedFromDir fs root pkg (Err err)
| ld_loaded n text c :
    first_present fs (resolve root pkg) candidates = Some (n, File text) ->
    from_str text (as_str (join_component (resolve root pkg) n)) = Ok c ->
    LoadedFromDir fs root pkg
      (Ok (Some {| inner := inner c; filename := n;
                   path := Some (anchored_join_component pkg n) |})).

(** The life cycle of a [Config]: created by [from_str], [load] or
    [load_from_dir], then changed only by [set_path]. *)
Inductive reachable : Config -> Prop :=
| reach_from_str input source c : from_str input source = Ok c -> reachable c
| reach_load fs p c : load fs p = Ok (Some c) -> reachable c
| reach_load_from_dir fs root pkg c : load_from_dir fs root pkg = Done (Ok (Some c)) -> reachable c
| reach_set_path c dir : reachable c -> reachable (set_path c dir).

End Load.

(** ** [load_v1_dir] is a first-match search *)

Lemma load_config_lookup fs dir n :
  load_config fs dir n =
    match fs !! abs_components (join_component dir n) with
    | None => None
    | Some (File t) => Some (Ok t, join_component dir n)
    | Some (Unreadable e) => Some (Err e, join_component dir n)
    end.
Proof.
  unfold load_config, read_existing_to_string.
  by destruct (fs !! abs_components (join_component dir n)) as [[t|e]|].
Qed.

Lemma load_v1_dir_lookup fs dir :
  load_v1_dir fs dir =
    match first_present fs dir candidates with
    | None => None
    | Some (n, File t) => Some (Ok t, join_component dir n)
    | Some (n, Unreadable e) => Some (Err e, join_component dir n)
    end.
Proof.
  unfold load_v1_dir, candidates. cbn [first_present]. rewrite !load_config_lookup.
  destruct (fs !! abs_components (join_component dir DEFAULT_MICROFRONTENDS_CONFIG_V1))
    as [[t|e]|]; cbn [or_else]; [done|done|].
  by destruct (fs !! abs_components (join_component dir DEFAULT_MICROFRONTENDS_CONFIG_V1_ALT))
    as [[t|e]|].
Qed.

(** C9: [load_v1_dir] returns the first candidate present in the
    directory, with its contents or its I/O error, trying
    [microfrontends.json] before [microfrontends.jsonc]. *)
Theorem load_v1_dir_first_present fs dir :
  load_v1_dir fs dir =
    match first_present fs dir candidates with
    | None => None
    | Some (n, File t) => Some (Ok t, join_component dir n)
    | Some (n, Unreadable e) => Some (Err e, join_component dir n)
    end.
Proof. apply load_v1_dir_lookup. Qed.

Lemma load_from_dir_total `{JsonParser} fs root pkg :
  exists r, load_from_dir fs root pkg = Done r /\ LoadedFromDir fs root pkg r.
Proof.
  unfold load_from_dir. rewrite load_v1_dir_lookup.
  destruct (first_present fs (resolve root pkg) candidates) as [[n [t|e]]|] eqn:F; simpl.
  - destruct (from_str t (as_str (join_component (resolve root pkg) n))) as [c|err] eqn:E.
    + rewrite file_name_join_component. simpl. eexists. split; [reflexivity|].
      exact (ld_loaded fs root pkg n t c F E).
    + eexists. split; [reflexivity|]. by apply ld_invalid with n t.
  - eexists. split; [reflexivity|]. by apply ld_unreadable with n.
  - eexists. split; [reflexivity|]. by apply ld_absent.
Qed.

(** The specification is deterministic. *)
Lemma LoadedFromDir_functional `{JsonParser} fs root pkg r1 r2 :
  LoadedFromDir fs root pkg r1 -> LoadedFromDir fs root pkg r2 -> r1 = r2.
Proof. intros [] []; congruence. Qed.

Lemma load_from_dir_spec `{JsonParser} fs root pkg r :
  LoadedFromDir fs root pkg r -> load_from_dir fs root pkg = Done r.
Proof.
  intros Hr. destruct (load_from_dir_total fs root pkg) as (r' & -> & Hr').
  by rewrite (LoadedFromDir_functional fs root pkg r r').
Qed.

(** C4: [load_from_dir] never panics, and it returns exactly the result
    the specification [LoadedFromDir] gives. *)
Theorem load_from_dir_refine `{JsonParser} fs root pkg r :
  load_from_dir fs root pkg = Done r <-> LoadedFromDir fs root pkg r.
Proof.
  split; [|apply load_from_dir_spec].
  destruct (load_from_dir_total fs root pkg) as (r' & -> & Hr'). by intros [= <-].
Qed.

(** C8: a package with neither candidate has no configuration, and that
    is not an error. *)
Theorem load_from_dir_absent `{JsonParser} fs root pkg :
  fs !! abs_components (join_component (resolve root pkg) DEFAULT_MICROFRONTENDS_CONFIG_V1) = None ->
  fs !! abs_components (join_component (resolve root pkg) DEFAULT_MICROFRONTENDS_CONFIG_V1_ALT) = None ->
  load_from_dir fs root pkg = Done (Ok None).
Proof.
  intros H1 H2. apply load_from_dir_spec, ld_absent. unfold candidates; cbn [first_present]. by rewrite H1, H2.
Qed.

(** C5: when [microfrontends.json] is a file, it is the one loaded,
    whatever [microfrontends.jsonc] holds; the file name is its base
    name and the path is the package directory joined with it. *)
Theorem load_from_dir_primary `{JsonParser} fs root pkg text c :
  fs !! abs_components (join_component (resolve root pkg) DEFAULT_MICROFRONTENDS_CONFIG_V1) =
    Some (File text) ->
  from_str text (as_str (join_component (resolve root pkg) DEFAULT_MICROFRONTENDS_CONFIG_V1)) = Ok c ->
  load_from_dir fs root pkg =
    Done (Ok (Some {| inner := inner c; filename := DEFAULT_MICROFRONTENDS_CONFIG_V1;
                      path := Some (anchored_join_component pkg DEFAULT_MICROFRONTENDS_CONFIG_V1) |})).
Proof.
  intros H1 Hc. apply load_from_dir_spec. apply ld_loaded with text; [|done]. unfold candidates; cbn [first_present]. by rewrite H1.
Qed.

(** C7: with only [microfrontends.jsonc] present, it is loaded, and the
    file name and path name the alternate file. *)
Theorem load_from_dir_alt `{JsonParser} fs root pkg text c :
  fs !! abs_components (join_component (resolve root pkg) DEFAULT_MICROFRONTENDS_CONFIG_V1) = None ->
  fs !! abs_components (join_component (resolve root pkg) DEFAULT_MICROFRONTENDS_CONFIG_V1_ALT) =
    Some (File text) ->
  from_str text (as_str (join_component (resolve root pkg) DEFAULT_MICROFRONTENDS_CONFIG_V1_ALT)) = Ok c ->
  load_from_dir fs root pkg =
    Done (Ok (Some {| inner := inner c; filename := DEFAULT_MICROFRONTENDS_CONFIG_V1_ALT;
                      path := Some (anchored_join_component pkg DEFAULT_MICROFRONTENDS_CONFIG_V1_ALT) |})).
Proof.
  intros H1 H2 Hc. apply load_from_dir_spec. apply ld_loaded with text; [|done].
  unfold candidates; cbn [first_present]. by rewrite H1, H2.
Qed.

(** C6: an I/O error on [microfrontends.json] is reported; the loader
    does not fall back to [microfrontends.jsonc]. *)
Theorem load_from_dir_io_error `{JsonParser} fs root pkg e :
  fs !! abs_components (join_component (resolve root pkg) DEFAULT_MICROFRONTENDS_CONFIG_V1) =
    Some (Unreadable e) ->
  load_from_dir fs root pkg = Done (Err (Io e)).
Proof.
  intros H1. apply load_from_dir_spec. apply ld_unreadable with DEFAULT_MICROFRONTENDS_CONFIG_V1.
  unfold candidates; cbn [first_present]. by rewrite H1.
Qed.

(** ** [Config::load] *)

Lemma load_Ok_Some `{JsonParser} fs p c :
  load fs p = Ok (Some c) -> exists t, fs !! abs_components p = Some (File t) /\ from_str t (as_str p) = Ok c.
Proof.
  unfold load, read_existing_to_string.
  destruct (fs !! abs_components p) as [[t|e]|]; simpl; try done.
  destruct (from_str t (as_str p)) eqn:E; simpl; [intros [= <-]|done]. eauto.
Qed.

(** C24: [load] reports "no configuration" exactly when the file does
    not exist, reports an unreadable file as an I/O error, and a
    configuration it returns is the parse of the file with the path as
    its file name and no path attached. *)
Theorem load_outcomes `{JsonParser} fs p :
  (load fs p = Ok None <-> fs !! abs_components p = None) /\
  (forall e, fs !! abs_components p = Some (Unreadable e) -> load fs p = Err (Io e)) /\
  (forall c, load fs p = Ok (Some c) ->
     filename c = as_str p /\ path c = None /\ config_wf c).
Proof.
  split_and!.
  - unfold load, read_existing_to_string.
    destruct (fs !! abs_components p) as [[t|e]|]; simpl; [|done|done].
    split; [|done]. by destruct (from_str t (as_str p)).
  - intros e He. unfold load, read_existing_to_string. by rewrite He.
  - intros c (t & _ & Hc)%load_Ok_Some. by destruct (from_str_Ok_inv _ _ _ Hc) as (-> & -> & _ & ?).
Qed.

(** ** Safety and the invariant of the life cycle *)

(** C25: [load_from_dir] never panics: the [expect] on the file name
    of the candidate path cannot fail. *)
Theorem load_from_dir_no_panic `{JsonParser} fs root pkg msg :
  load_from_dir fs root pkg <> Panic msg.
Proof. by destruct (load_from_dir_total fs root pkg) as (r & -> & _). Qed.

(** C27: [load_from_dir] consults the file system only at the two
    candidate paths of the package directory: file systems that agree
    there give the same result. *)
Theorem load_from_dir_frame `{JsonParser} fs1 fs2 root pkg :
  (forall n, n ∈ candidates ->
     fs1 !! abs_components (join_component (resolve root pkg) n) =
     fs2 !! abs_components (join_component (resolve root pkg) n)) ->
  load_from_dir fs1 root pkg = load_from_dir fs2 root pkg.
Proof.
  intros Hagree. unfold load_from_dir. rewrite !load_v1_dir_lookup. unfold candidates in *.
  cbn [first_present]. rewrite !Hagree by set_solver. done.
Qed.

Lemma load_from_dir_inv `{JsonParser} fs root pkg c :
  load_from_dir fs root pkg = Done (Ok (Some c)) -> config_inv c.
Proof.
  destruct (load_from_dir_total fs root pkg) as (r & -> & Hr). intros [= ->].
  inversion Hr as [| | |n t c' F Hc]; subst.
  destruct (from_str_Ok_inv _ _ _ Hc) as (_ & _ & _ & Hwf).
  exact (set_path_inv {| inner := inner c'; filename := n; path := None |} pkg Hwf).
Qed.

(** C23: every [Config] of the life cycle satisfies [config_inv]: its
    model is well formed, and once a path is attached its last
    component is the file name. *)
Theorem reachable_config_inv `{JsonParser} c : reachable c -> config_inv c.
Proof.
  induction 1 as [input source c Hc|fs p c Hc|fs root pkg c Hc|c dir _ [Hwf _]].
  - destruct (from_str_Ok_inv _ _ _ Hc) as (_ & Hp & _ & Hwf). by apply config_inv_no_path.
  - destruct (load_Ok_Some _ _ _ Hc) as (t & _ & Ht).
    destruct (from_str_Ok_inv _ _ _ Ht) as (_ & Hp & _ & Hwf). by apply config_inv_no_path.
  - by apply (load_from_dir_inv fs root pkg).
  - by apply set_path_inv.
Qed.

(** C32: what the proxy gets from a package: for every configuration
    [load_from_dir] returns, the task iterator yields distinct
    applications, exactly those of the topology with their package and
    task, and every port it reports fits in a [u16]. *)
Theorem load_from_dir_queries `{JsonParser} fs root pkg c :
  load_from_dir fs root pkg = Done (Ok (Some c)) ->
  (forall ts, yields (development_tasks c) ts ->
     NoDup (map application_name ts) /\
     forall t, t ∈ ts <-> exists v, config_topology c !! application_name t = Some v /\
                                    package t = view_package v /\ task t = view_task v) /\
  (forall name n, port c name = Some n -> (0 <= n < 65536)%Z).
Proof.
  intros [Hwf _]%load_from_dir_inv. destruct c as [[c1] f p]. split.
  - intros ts ->%config_yields_iff. split; [by apply development_tasks_size|].
    intros t. by apply development_tasks_refine.
  - intros name n. by apply port_bounds.
Qed.

Lemma first_present_Some fs dir names n e :
  first_present fs dir names = Some (n, e) ->
  fs !! abs_components (join_component dir n) = Some e.
Proof.
  induction names as [|n' names IH]; cbn [first_present]; [done|].
  destruct (fs !! abs_components (join_component dir n')) eqn:E; [|exact IH].
  by intros [= -> ->].
Qed.

Lemma first_present_elem fs dir names n e :
  first_present fs dir names = Some (n, e) -> n ∈ names.
Proof.
  induction names as [|n' names IH]; cbn [first_present]; [done|].
  destruct (fs !! abs_components (join_component dir n')); [intros [= -> _]; left|intros; right; auto].
Qed.

(** C26: the path a configuration gets from [load_from_dir] in a
    package directory with normal components prints, by
    [AnchoredSystemPath::as_str], to a string that
    [AnchoredSystemPath::new] reads back as the same path. *)
Theorem load_from_dir_path_roundtrip `{JsonParser} fs root pkg c p :
  forallb normal_component (anc_components pkg) = true ->
  load_from_dir fs root pkg = Done (Ok (Some c)) -> Accessors.path c = Some p ->
  anchored_new (anchored_as_str p) = Ok p.
Proof.
  intros Hpkg. destruct (load_from_dir_total fs root pkg) as (r & -> & Hr). intros [= ->].
  inversion Hr as [| | |n t c' F Hc]; subst. intros [= <-].
  apply anchored_new_as_str. cbn. rewrite forallb_app, Hpkg. simpl.
  apply first_present_elem in F. unfold candidates in F.
  by repeat (rewrite elem_of_cons in F; destruct F as [->|F]); [..|apply elem_of_nil in F].
Qed.

(** C21: [load_from_dir] is [load] on the first candidate present in
    the package directory, followed by the renaming of the file to its
    base name and [set_path]: the two loaders agree on the model. *)
Theorem load_from_dir_via_load `{JsonParser} fs root pkg n e :
  first_present fs (resolve root pkg) candidates = Some (n, e) ->
  load_from_dir fs root pkg =
    Done (match load fs (join_component (resolve root pkg) n) with
          | Ok (Some c) =>
              Ok (Some (set_path {| inner := inner c; filename := n; path := path c |} pkg))
          | Ok None => Ok None
          | Err err => Err err
          end).
Proof.
  intros Hf. pose proof (first_present_Some _ _ _ _ _ Hf) as Hl.
  unfold load, read_existing_to_string. rewrite Hl. destruct e as [text|err]; simpl.
  - destruct (from_str text (as_str (join_component (resolve root pkg) n))) as [c|err] eqn:Hc;
      simpl; apply load_from_dir_spec; [exact (ld_loaded fs root pkg n text c Hf Hc)|by apply ld_invalid with n text].
  - apply load_from_dir_spec. by apply ld_unreadable with n.
Qed.

(** ** Concrete runs: a package "web" under the root "/tmp" *)

Lemma load_from_dir_primary_witness :
  @load_from_dir jsonc_parser
    (<[["tmp"; "web"; "microfrontends.json"] := File (dq "{'applications': {'web': {}}}")]>
     (<[["tmp"; "web"; "microfrontends.jsonc"] := File "not json"]> ∅))
    (AbsPath ["tmp"]) (AnchPath ["web"]) =
  Done (Ok (Some {| inner := V1 {| applications := [("web", empty_application)] |};
                    filename := "microfrontends.json";
                    path := Some (AnchPath ["web"; "microfrontends.json"]) |})).
Proof.
  apply (@load_from_dir_primary jsonc_parser _ (AbsPath ["tmp"]) (AnchPath ["web"]) (dq "{'applications': {'web': {}}}")
    {| inner := V1 {| applications := [("web", empty_application)] |};
       filename := "/tmp/web/microfrontends.json"; path := None |});
    vm_compute; reflexivity.
Defined.

Lemma load_from_dir_alt_witness :
  @load_from_dir jsonc_parser
    (<[["tmp"; "web"; "microfrontends.jsonc"] := File (dq "{'applications': {'web': {}}} // jsonc")]> ∅)
    (AbsPath ["tmp"]) (AnchPath ["web"]) =
  Done (Ok (Some {| inner := V1 {| applications := [("web", empty_application)] |};
                    filename := "microfrontends.jsonc";
                    path := Some (AnchPath ["web"; "microfrontends.jsonc"]) |})).
Proof.
  apply (@load_from_dir_alt jsonc_parser _ (AbsPath ["tmp"]) (AnchPath ["web"]) (dq "{'applications': {'web': {}}} // jsonc")
    {| inner := V1 {| applications := [("web", empty_application)] |};
       filename := "/tmp/web/microfrontends.jsonc"; path := None |});
    vm_compute; reflexivity.
Defined.

Lemma load_from_dir_absent_witness :
  @load_from_dir jsonc_parser (<[["tmp"; "docs"; "microfrontends.json"] := File "{}"]> ∅)
    (AbsPath ["tmp"]) (AnchPath ["web"]) = Done (Ok None).
Proof. apply (@load_from_dir_absent jsonc_parser); vm_compute; reflexivity. Defined.

Lemma load_from_dir_io_error_witness :
  @load_from_dir jsonc_parser
    (<[["tmp"; "web"; "microfrontends.json"] := Unreadable {| io_kind := PermissionDenied |}]>
     (<[["tmp"; "web"; "microfrontends.jsonc"] := File (dq "{'applications': {}}")]> ∅))
    (AbsPath ["tmp"]) (AnchPath ["web"]) = Done (Err (Io {| io_kind := PermissionDenied |})).
Proof. apply (@load_from_dir_io_error jsonc_parser). vm_compute. reflexivity. Defined.

Lemma load_from_dir_via_load_witness :
  @load_from_dir jsonc_parser
    (<[["tmp"; "web"; "microfrontends.json"] := File (dq "{'applications': {}}")]> ∅)
    (AbsPath ["tmp"]) (AnchPath ["web"]) =
  Done (match @load jsonc_parser
                (<[["tmp"; "web"; "microfrontends.json"] := File (dq "{'applications': {}}")]> ∅)
                (AbsPath ["tmp"; "web"; "microfrontends.json"]) with
        | Ok (Some c) =>
            Ok (Some (set_path {| inner := inner c; filename := "microfrontends.json"; path := path c |}
                        (AnchPath ["web"])))
        | Ok None => Ok None
        | Err err => Err err
        end).
Proof.
  apply (@load_from_dir_via_load jsonc_parser _ (AbsPath ["tmp"]) (AnchPath ["web"]) _
           (File (dq "{'applications': {}}"))).
  vm_compute. reflexivity.
Defined.

Lemma load_outcomes_witness :
  @load jsonc_parser
    (<[["tmp"; "web"; "microfrontends.json"] := Unreadable {| io_kind := IsADirectory |}]> ∅)
    (AbsPath ["tmp"; "web"; "microfrontends.json"]) = Err (Io {| io_kind := IsADirectory |}).
Proof. apply (proj1 (proj2 (@load_outcomes jsonc_parser _ _))). reflexivity. Defined.

Lemma reachable_config_inv_witness :
  config_inv (set_path {| inner := V1 {| applications := [("web", empty_application)] |};
                          filename := "microfrontends.json";
                          path := Some (AnchPath ["web"; "microfrontends.json"]) |}
                (AnchPath ["apps"; "web"])).
Proof.
  apply (@reachable_config_inv jsonc_parser), reach_set_path.
  apply (reach_load_from_dir
           (<[["tmp"; "web"; "microfrontends.json"] := File (dq "{'applications': {'web': {}}}")]> ∅)
           (AbsPath ["tmp"]) (AnchPath ["web"])).
  vm_compute. reflexivity.
Defined.

Lemma load_from_dir_path_roundtrip_witness :
  anchored_new (anchored_as_str (AnchPath ["apps"; "web"; "microfrontends.json"])) =
    Ok (AnchPath ["apps"; "web"; "microfrontends.json"]).
Proof.
  apply (@load_from_dir_path_roundtrip jsonc_parser
           (<[["tmp"; "apps"; "web"; "microfrontends.json"] := File (dq "{'applications': {}}")]> ∅)
           (AbsPath ["tmp"]) (AnchPath ["apps"; "web"])
           {| inner := V1 {| applications := [] |}; filename := "microfrontends.json";
              path := Some (AnchPath ["apps"; "web"; "microfrontends.json"]) |});
    vm_compute; reflexivity.
Defined.

Lemma load_from_dir_frame_witness :
  @load_from_dir jsonc_parser
    (<[["tmp"; "web"; "microfrontends.json"] := File (dq "{'applications': {}}")]>
     (<[["tmp"; "docs"; "microfrontends.json"] := File "not json"]> ∅))
    (AbsPath ["tmp"]) (AnchPath ["web"]) =
  @load_from_dir jsonc_parser
    (<[["tmp"; "web"; "microfrontends.json"] := File (dq "{'applications': {}}")]> ∅)
    (AbsPath ["tmp"]) (AnchPath ["web"]).
Proof.
  apply (@load_from_dir_frame jsonc_parser). intros n Hn. unfold candidates in Hn.
  repeat (rewrite elem_of_cons in Hn; destruct Hn as [->|Hn]); [vm_compute; reflexivity..|apply elem_of_nil in Hn as []].
Defined.

Lemma load_from_dir_queries_witness :
  let c := {| inner := V1 {| applications := [("web", {| package_name := Some "site"; development := None;
                                                          app_port := Some 3000%Z |})] |};
              filename := "microfrontends.json";
              path := Some (AnchPath ["web"; "microfrontends.json"]) |} in
  (forall ts, yields (development_tasks c) ts ->
     NoDup (map application_name ts) /\
     forall t, t ∈ ts <-> exists v, config_topology c !! application_name t = Some v /\
                                    package t = view_package v /\ task t = view_task v) /\
  (forall name n, port c name = Some n -> (0 <= n < 65536)%Z).
Proof.
  apply (@load_from_dir_queries jsonc_parser
           (<[["tmp"; "web"; "microfrontends.json"] :=
               File (dq "{'applications': {'web': {'packageName': 'site', 'port': 3000}}}")]> ∅)
           (AbsPath ["tmp"]) (AnchPath ["web"])).
  vm_compute. reflexivity.
Defined.
