(* ===== verification/Tests.v ===== *)
(** * The test module of lib.rs

    The fixtures write a configuration into a temporary directory; the
    [LoadDirTest] builder describes which files exist and what
    [load_from_dir] must return.  Each test is a proposition: its
    assertions hold, and no [unwrap] or [expect] panics.  The tests run
    the JSONC parser instance, and the temporary directory is any
    absolute path string: [AbsoluteSystemPath::new] accepts it, and the
    theorems hold for every such path.
    [test_example_parses] reads [fixtures/sample.jsonc], which is not
    part of the sources, and is not modelled. *)

From S2P Require Import Prelude Paths Json JsoncParser ConfigV1 Crate Config Loader.

#[local] Existing Instance jsonc_parser.

(** The contents the fixtures write. *)
Definition v1_text : string :=
  dq "{'version': '1', 'applications': {'web': {'development': {'task': 'serve'}}, 'docs': {}}}".
Definition no_version_text : string :=
  dq "{'applications': {'web': {'development': {'task': 'serve'}}, 'docs': {}}}".
Definition v2_text : string :=
  dq "{'version': '2', 'applications': {'web': {'development': {'task': 'serve'}}, 'docs': {}}}".

(** [path.ensure_dir()?; path.create_with_contents(..)]: the file
    system gains the file (directories are not represented). *)
Definition create_with_contents (fs : FileSystem) (path : AbsoluteSystemPath) (contents : string)
  : FileSystem :=
  <[abs_components path := File contents]> fs.

Definition add_v1_config (fs : FileSystem) (dir : AbsoluteSystemPath) : FileSystem :=
  create_with_contents fs (join_component dir DEFAULT_MICROFRONTENDS_CONFIG_V1) v1_text.
Definition add_no_version_config (fs : FileSystem) (dir : AbsoluteSystemPath) : FileSystem :=
  create_with_contents fs (join_component dir DEFAULT_MICROFRONTENDS_CONFIG_V1) no_version_text.
Definition add_v2_config (fs : FileSystem) (dir : AbsoluteSystemPath) : FileSystem :=
  create_with_contents fs (join_component dir DEFAULT_MICROFRONTENDS_CONFIG_V1) v2_text.
Definition add_v1_alt_config (fs : FileSystem) (dir : AbsoluteSystemPath) : FileSystem :=
  create_with_contents fs (join_component dir DEFAULT_MICROFRONTENDS_CONFIG_V1_ALT) v1_text.

Inductive FoundConfig := FoundV1.

Record LoadDirTest := {
  has_v1 : bool;
  has_alt_v1 : bool;
  has_versionless : bool;
  pkg_dir : string;
  expected_version : option FoundConfig;
  expected_filename : option string
}.

Definition new (pkg_dir : string) : LoadDirTest :=
  {| pkg_dir := pkg_dir; has_v1 := false; has_alt_v1 := false; has_versionless := false;
     expected_version := None; expected_filename := None |}.

Definition set_has_v1 (t : LoadDirTest) : LoadDirTest :=
  {| pkg_dir := pkg_dir t; has_v1 := true; has_alt_v1 := has_alt_v1 t;
     has_versionless := has_versionless t; expected_version := expected_version t;
     expected_filename := expected_filename t |}.

Definition set_has_alt_v1 (t : LoadDirTest) : LoadDirTest :=
  {| pkg_dir := pkg_dir t; has_v1 := has_v1 t; has_alt_v1 := true;
     has_versionless := has_versionless t; expected_version := expected_version t;
     expected_filename := expected_filename t |}.

Definition set_has_versionless (t : LoadDirTest) : LoadDirTest :=
  {| pkg_dir := pkg_dir t; has_v1 := has_v1 t; has_alt_v1 := has_alt_v1 t;
     has_versionless := true; expected_version := expected_version t;
     expected_filename := expected_filename t |}.

Definition expects_v1 (t : LoadDirTest) : LoadDirTest :=
  {| pkg_dir := pkg_dir t; has_v1 := has_v1 t; has_alt_v1 := has_alt_v1 t;
     has_versionless := has_versionless t; expected_version := Some FoundV1;
     expected_filename := expected_filename t |}.

Definition with_filename (t : LoadDirTest) (filename : string) : LoadDirTest :=
  {| pkg_dir := pkg_dir t; has_v1 := has_v1 t; has_alt_v1 := has_alt_v1 t;
     has_versionless := has_versionless t; expected_version := expected_version t;
     expected_filename := Some filename |}.

(** [LoadDirTest::expected_path]: [AnchoredSystemPath::new(..).unwrap()]
    joined with the expected file name. *)
Definition expected_path (t : LoadDirTest) : exec (option AnchoredSystemPath) :=
  match expected_filename t with
  | None => Done None
  | Some filename =>
      (pkg <-! unwrap (anchored_new (pkg_dir t)) ;;
       Done (Some (anchored_join_component pkg filename)))%rust
  end.

Definition LOAD_V1 : LoadDirTest :=
  with_filename (expects_v1 (set_has_v1 (new "web"))) DEFAULT_MICROFRONTENDS_CONFIG_V1.
Definition LOAD_V1_ALT : LoadDirTest :=
  with_filename (expects_v1 (set_has_alt_v1 (new "web"))) DEFAULT_MICROFRONTENDS_CONFIG_V1_ALT.
Definition LOAD_NONE : LoadDirTest := new "web".
Definition LOAD_VERSIONLESS : LoadDirTest :=
  with_filename (expects_v1 (set_has_versionless (new "web"))) DEFAULT_MICROFRONTENDS_CONFIG_V1.

(** What the fixtures' text parses to: "web" runs "serve", "docs" has
    no task. *)
Definition web_docs : ConfigV1 :=
  {| applications :=
       [("web", {| package_name := None; development := Some {| dev_task := Some "serve" |};
                   app_port := None |});
        ("docs", empty_application)] |}.

(** The files [test_load_dir] creates under [pkg_path]. *)
Definition fixture_fs (case : LoadDirTest) (pkg_path : AbsoluteSystemPath) : FileSystem :=
  let fs : FileSystem := ∅ in
  let fs := if has_v1 case then add_v1_config fs pkg_path else fs in
  let fs := if has_alt_v1 case then add_v1_alt_config fs pkg_path else fs in
  if has_versionless case then add_no_version_config fs pkg_path else fs.

(** The [#[test_case]] attributes of [test_load_dir]. *)
Definition load_dir_cases : list LoadDirTest := [LOAD_V1; LOAD_V1_ALT; LOAD_NONE; LOAD_VERSIONLESS].

(** [test_load_dir]: the test passes when no [unwrap] panics, the
    loader returns without an error, and both assertions hold. *)
Definition test_load_dir (case : LoadDirTest) (tmp : string) : Prop :=
  match unwrap (absolute_new tmp), unwrap (anchored_new (pkg_dir case)) with
  | Panic _, _ | _, Panic _ => False
  | Done repo_root, Done pkg_dir =>
      let pkg_path := resolve repo_root pkg_dir in
      match load_from_dir (fixture_fs case pkg_path) repo_root pkg_dir, expected_path case with
      | Done (Ok config), Done expected =>
          let actual_version := option_map (fun c => match inner c with V1 _ => FoundV1 end) config in
          let actual_path := config ≫= Accessors.path in
          actual_version = expected_version case /\ actual_path = expected
      | _, _ => False
      end
  end.

(** [test_unsupported_version]: [unwrap_err] panics on [Ok]; the
    snapshot is the Display of the error.  Only the Display of
    [UnsupportedVersion] is modelled, so the proposition requires that
    variant: it implies the test. *)
Definition test_unsupported_version : Prop :=
  let input := dq "{'version': 'yolo'}" in
  match from_str input "something.json" with
  | Err (UnsupportedVersion v) =>
      unsupported_version_message v =
        dq "Unsupported microfrontends configuration version: yolo. Supported versions: ['1']"
  | _ => False
  end.

(** [test_unsupported_version_from_dir] *)
Definition test_unsupported_version_from_dir (tmp : string) : Prop :=
  match unwrap (absolute_new tmp), unwrap (anchored_new "web") with
  | Panic _, _ | _, Panic _ => False
  | Done repo_root, Done pkg_dir =>
      let pkg_path := resolve repo_root pkg_dir in
      match load_from_dir (add_v2_config ∅ pkg_path) repo_root pkg_dir with
      | Done (Err (UnsupportedVersion _)) => True
      | _ => False
      end
  end.

(** ** The fixtures parse *)

Lemma from_str_v1_text source :
  from_str v1_text source = Ok {| inner := V1 web_docs; filename := source; path := None |}.
Proof. reflexivity. Qed.

Lemma from_str_no_version_text source :
  from_str no_version_text source = Ok {| inner := V1 web_docs; filename := source; path := None |}.
Proof. reflexivity. Qed.

Lemma from_str_v2_text source : from_str v2_text source = Err (UnsupportedVersion "2").
Proof. reflexivity. Qed.

Lemma fixture_lookup k t :
  (<[k := File t]> (∅ : FileSystem)) !! k = Some (File t).
Proof. apply lookup_insert_eq. Qed.

Lemma fixture_lookup_other p n n' t :
  n ≠ n' ->
  (<[abs_components (join_component p n) := File t]> (∅ : FileSystem))
    !! abs_components (join_component p n') = None.
Proof. intros Hne. rewrite lookup_insert_ne; [apply lookup_empty|by apply join_component_ne]. Qed.

Lemma unwrap_absolute_new tmp :
  is_absolute tmp = true -> unwrap (absolute_new tmp) = Done (AbsPath (path_components tmp)).
Proof. intros Habs. unfold absolute_new. by rewrite Habs. Qed.

Lemma unwrap_anchored_new_web : unwrap (anchored_new "web") = Done (AnchPath ["web"]).
Proof. reflexivity. Qed.

(** The package of [test_unsupported_version_from_dir] fails to load
    with the version its file declares. *)
Lemma load_v2_fixture repo_root :
  let pkg_dir := AnchPath ["web"] in
  load_from_dir (add_v2_config ∅ (resolve repo_root pkg_dir)) repo_root pkg_dir =
    Done (Err (UnsupportedVersion "2")).
Proof.
  intros pkg_dir. unfold add_v2_config, create_with_contents.
  apply load_from_dir_spec, (ld_invalid _ _ _ DEFAULT_MICROFRONTENDS_CONFIG_V1 v2_text).
  - unfold candidates; cbn [first_present]. by rewrite fixture_lookup.
  - apply from_str_v2_text.
Qed.

(** [load_from_dir] on a fixture whose first present candidate parses
    by [parsed]; [lookup] finds that candidate in the file system. *)
Ltac load_fixture parsed lookup :=
  erewrite load_from_dir_spec;
  [|eapply ld_loaded; [|apply parsed]; unfold candidates; cbn [first_present]; lookup];
  simpl; split; reflexivity.

(** ** The tests *)

(** C18: the four cases of [test_load_dir] pass for every repository
    root: the primary file, the alternate file alone, no file, and a
    primary file without [version] all load as the test expects. *)
Theorem test_load_dir_cases tmp :
  is_absolute tmp = true -> Forall (fun case => test_load_dir case tmp) load_dir_cases.
Proof.
  intros Habs. unfold load_dir_cases. rewrite !Forall_cons, Forall_nil. split_and!; [..|done].
  all: unfold test_load_dir, fixture_fs; cbn [has_v1 has_alt_v1 has_versionless LOAD_V1
    LOAD_V1_ALT LOAD_NONE LOAD_VERSIONLESS new with_filename expects_v1 set_has_v1
    set_has_alt_v1 set_has_versionless Tests.pkg_dir];
    rewrite (unwrap_absolute_new tmp Habs), unwrap_anchored_new_web; cbv beta iota zeta.
  - unfold add_v1_config, create_with_contents.
    load_fixture from_str_v1_text ltac:(by rewrite fixture_lookup).
  - unfold add_v1_alt_config, create_with_contents.
    load_fixture from_str_v1_text ltac:(by rewrite fixture_lookup_other, fixture_lookup).
  - erewrite load_from_dir_spec; [|by apply ld_absent]. simpl. split; reflexivity.
  - unfold add_no_version_config, create_with_contents.
    load_fixture from_str_no_version_text ltac:(by rewrite fixture_lookup).
Qed.

(** C19: [test_unsupported_version_from_dir] passes for every
    repository root: a package whose [microfrontends.json] declares
    version "2" fails to load with [UnsupportedVersion]. *)
Theorem test_unsupported_version_from_dir_passes tmp :
  is_absolute tmp = true -> test_unsupported_version_from_dir tmp.
Proof.
  intros Habs. unfold test_unsupported_version_from_dir.
  rewrite (unwrap_absolute_new tmp Habs), unwrap_anchored_new_web. cbv beta iota zeta.
  by rewrite load_v2_fixture.
Qed.

Lemma test_load_dir_cases_witness :
  is_absolute "/tmp/.tmpQ3xv9a" = true /\
  Forall (fun case => test_load_dir case "/tmp/.tmpQ3xv9a") load_dir_cases.
Proof. split; [reflexivity|]. apply test_load_dir_cases. reflexivity. Defined.

Lemma test_unsupported_version_from_dir_passes_witness :
  is_absolute "/tmp/.tmpQ3xv9a" = true /\ test_unsupported_version_from_dir "/tmp/.tmpQ3xv9a".
Proof. split; [reflexivity|]. apply test_unsupported_version_from_dir_passes. reflexivity. Defined.
